(** * pd-sync: the mapping-driven person upsert of [src/index.ts]

    A shallow embedding of [formatError], [findPersonByName],
    [createOrUpdatePerson], [syncPdPerson] and the statement that runs
    the sync and logs its outcome, followed by the properties the
    specification states about them and by further properties of the code.

    - JavaScript values are an inductive type [value]. A number is an
      integer, and stands for itself as long as it is a safe integer
      (below [2^53] in absolute value): these are the numbers JavaScript
      holds exactly and prints with all their digits. [NaN], fractions
      and larger numbers are not modelled, and the statements that print
      a number are about safe integers.
    - An object built by the program is the finite map of its own
      properties, which are what goes into the body of a request.
    - [await] is sequential, so the three [async] functions are written in
      a state-and-exception monad [M]: the state is the list of HTTP
      requests issued so far, an exception is a thrown [Error].
    - The two libraries the program calls are parameters of the
      development: lodash's [get] and the [axios] transport. *)

From Stdlib Require Import Ascii.
From stdpp Require Import base option list strings pretty gmap fin_maps.

Local Open Scope string_scope.
Set Warnings "-register-all".

(** ** JavaScript values *)

Inductive value : Type :=
  | JUndefined
  | JNull
  | JBool (b : bool)
  | JNum (n : Z)
  | JStr (s : string)
  | JArr (l : list value)
  | JObj (kv : list (string * value)).

(** The safe integers, [Number.isSafeInteger]. *)
Definition safeInteger (n : Z) : Prop := (- 2 ^ 53 < n < 2 ^ 53)%Z.

(** [!!v] of JavaScript: everything is truthy except [undefined], [null],
    [false], [0] and the empty string. *)
Definition truthy (v : value) : bool :=
  match v with
  | JUndefined | JNull => false
  | JBool b => b
  | JNum n => negb (n =? 0)%Z
  | JStr s => negb (String.eqb s "")
  | JArr _ | JObj _ => true
  end.

(** [v === undefined || v === null]. *)
Definition nullish (v : value) : bool :=
  match v with
  | JUndefined | JNull => true
  | _ => false
  end.

Definition typeof (v : value) : string :=
  match v with
  | JUndefined => "undefined"
  | JNull => "object"
  | JBool _ => "boolean"
  | JNum _ => "number"
  | JStr _ => "string"
  | JArr _ | JObj _ => "object"
  end.

(** [a || b] *)
Definition js_or (a b : value) : value := if truthy a then a else b.

(** [a ?? b] *)
Definition js_coalesce (a b : value) : value := if nullish a then b else a.

Fixpoint join (sep : string) (l : list string) : string :=
  match l with
  | [] => ""
  | [s] => s
  | s :: rest => s +:+ sep +:+ join sep rest
  end.

(** The string conversion performed by a template literal [`${v}`]; of a
    number, for the safe integers, which are printed with all their
    digits. *)
Fixpoint toString (v : value) : string :=
  match v with
  | JUndefined => "undefined"
  | JNull => "null"
  | JBool true => "true"
  | JBool false => "false"
  | JNum n => pretty n
  | JStr s => s
  | JArr l =>
      join "," ((fix elements (l : list value) : list string :=
                   match l with
                   | [] => []
                   | x :: rest =>
                       (if nullish x then "" else toString x) :: elements rest
                   end) l)
  | JObj _ => "[object Object]"
  end.

(** Own-property lookup in an object, by key. *)
Fixpoint assoc (k : string) (kv : list (string * value)) : value :=
  match kv with
  | [] => JUndefined
  | (k', v) :: rest => if String.eqb k' k then v else assoc k rest
  end.

(** [v.k] for a value [v] that is neither [undefined] nor [null], and a
    property name [k] that is not a built-in of arrays or strings (the
    program reads only [data], [items], [item] and [id]). *)
Definition prop (v : value) (k : string) : value :=
  match v with
  | JObj kv => assoc k kv
  | _ => JUndefined
  end.

(** [v[0]] for a value [v] that is neither [undefined] nor [null]. *)
Definition index0 (v : value) : value :=
  match v with
  | JArr l => hd JUndefined l
  | JStr (String c _) => JStr (String c "")
  | JObj kv => assoc "0" kv
  | _ => JUndefined
  end.

(** [v?.k] *)
Definition optProp (v : value) (k : string) : value :=
  if nullish v then JUndefined else prop v k.

(** [acc[k] = v] on an object that started as [{}]. Every key becomes an
    own property, but ["__proto__"]: that one is the accessor inherited
    from [Object.prototype], and assigning to it changes the prototype of
    the object (or nothing, when [v] is not an object) and creates no own
    property. *)
Definition setProperty (k : string) (v : value) (acc : gmap string value)
    : gmap string value :=
  if String.eqb k "__proto__" then acc else <[k := v]> acc.

(** ** Errors *)

(** What a [catch] clause can receive: an [AxiosError], with its
    [message] and the [response?.data?.error] string of the remote reply
    (typed [error?: string] by [PipedriveErrorResponse]), or any other
    [Error] with its [message]. *)
Inductive exn : Type :=
  | AxiosError (message : string) (response_error : option string)
  | Error (message : string).

Definition message (e : exn) : string :=
  match e with
  | AxiosError m _ => m
  | Error m => m
  end.

Definition optString (o : option string) : value :=
  match o with
  | Some s => JStr s
  | None => JUndefined
  end.

Definition formatError (context : string) (error : exn) : string :=
  match error with
  | AxiosError m r =>
      context +:+ ": " +:+
        toString (js_or (optString r) (js_or (JStr m) (JStr "Unknown API error")))
  | Error m =>
      context +:+ ": " +:+ toString (js_or (JStr m) (JStr "Unknown error"))
  end.

(** The [TypeError] of reading a property of [undefined] or [null]. *)
Definition typeError (v : value) (k : string) : exn :=
  Error ("Cannot read properties of " +:+ toString v +:+
         " (reading '" +:+ k +:+ "')").

(** [v.k], throwing on [undefined] and [null]. *)
Definition getProp (v : value) (k : string) : exn + value :=
  if nullish v then inl (typeError v k) else inr (prop v k).

(** [v[0]], throwing on [undefined] and [null]. *)
Definition getIndex0 (v : value) : exn + value :=
  if nullish v then inl (typeError v "0") else inr (index0 v).

(** ** Configuration, requests and the monad *)

Record Mapping : Type := mkMapping {
  pipedriveKey : string;
  inputKey : string
}.

(** [process.env]: each variable is a string or [undefined]. *)
Record Env : Type := mkEnv {
  PIPEDRIVE_API_KEY : option string;
  PIPEDRIVE_COMPANY_DOMAIN : option string;
  BASE_URL_VAR : option string
}.

Inductive method : Type := GET | POST | PUT.

Record request : Type := mkRequest {
  req_method : method;
  req_url : string;
  req_params : list (string * value);
  req_data : option (gmap string value)
}.

(** A computation runs from the list of requests issued so far, and ends
    with a thrown error or a result, and the extended list. *)
Definition M (A : Type) : Type := list request → (exn + A) * list request.

Definition throw {A} (e : exn) : M A := λ tr, (inl e, tr).

#[global] Instance M_ret : MRet M := λ A a tr, (inr a, tr).

#[global] Instance M_bind : MBind M := λ A B k m tr,
  match m tr with
  | (inl e, tr') => (inl e, tr')
  | (inr a, tr') => k a tr'
  end.

(** [try { m } catch (error) { h error }] *)
Definition try_catch {A} (m : M A) (h : exn → M A) : M A :=
  λ tr, match m tr with
        | (inl e, tr') => h e tr'
        | (inr a, tr') => (inr a, tr')
        end.

(** An expression that may throw, evaluated inside a computation. *)
Definition lift {A} (r : exn + A) : M A := λ tr, (r, tr).

(** The same sequencing for expressions, which only throw or yield. *)
#[global] Instance exn_ret : MRet (sum exn) := λ A a, inr a.

#[global] Instance exn_bind : MBind (sum exn) := λ A B k r,
  match r with
  | inl e => inl e
  | inr a => k a
  end.

(** ** A resolver and transports to run the program on *)

(** Splits a path at its dots. *)
Fixpoint split_dots (cur : string) (s : string) : list string :=
  match s with
  | EmptyString => [String.rev cur]
  | String c rest =>
      if Ascii.eqb c "."%char then String.rev cur :: split_dots "" rest
      else split_dots (String c cur) rest
  end.

Fixpoint walk (v : value) (path : list string) : value :=
  match path with
  | [] => v
  | k :: rest => if nullish v then JUndefined else walk (prop v k) rest
  end.

(** lodash's [get] on objects and paths of dot-separated keys: a key that
    is a property of the object itself is read directly, any other path
    is followed key by key, and the result is [undefined] as soon as a
    step is missing. Paths with brackets, indices into arrays and
    properties of strings are not covered: the properties below are
    stated for every resolver, and this one only runs the examples. *)
Definition get_dotted (object : value) (path : string) : value :=
  if nullish object then JUndefined
  else match prop object path with
       | JUndefined => walk object (split_dots "" path)
       | v => v
       end.

(** A string that is not empty. *)
Definition nonEmptyString (v : value) : Prop := ∃ s, v = JStr s ∧ s ≠ "".

(** A record: an object, as [PipedrivePerson] is. *)
Definition isObject (v : value) : Prop := ∃ kv, v = JObj kv.

(** A transport whose every request is rejected with the same error. *)
Definition axios_rejecting (e : exn) : list request → request → exn + value :=
  λ _ _, inl e.

(** A transport that answers every [GET] with [found] and every other
    request with [saved]. *)
Definition axios_answering (found saved : value)
    : list request → request → exn + value :=
  λ _ r, match req_method r with
         | GET => inr found
         | _ => inr saved
         end.

(** The body the search endpoint replies with:
    [{ data: { items: [ { item: person }, ... ] } }]. *)
Definition searchResponse (persons : list value) : value :=
  JObj [("data", JObj [("items", JArr (map (λ p, JObj [("item", p)]) persons))])].

(** The body the create and update endpoints reply with: [{ data: person }]. *)
Definition personResponse (person : value) : value :=
  JObj [("data", person)].

(** The mapping table, input record and environment of the scenario of
    the specification. *)
Definition jane_mappings : list Mapping :=
  [mkMapping "name" "fullName"; mkMapping "email" "contact.email"].

Definition jane_input : value :=
  JObj [("fullName", JStr "Jane Doe");
        ("contact", JObj [("email", JStr "jane@x.com")])].

Definition acme_env : Env :=
  {| PIPEDRIVE_API_KEY := Some "key";
     PIPEDRIVE_COMPANY_DOMAIN := Some "acme";
     BASE_URL_VAR := None |}.

(** An input whose name is the empty string. *)
Definition empty_name_input : value := JObj [("fullName", JStr "")].

(** A table with two entries for ["name"], and an input in which only the
    source of the earlier one is present. *)
Definition dup_mappings : list Mapping :=
  [mkMapping "name" "a"; mkMapping "name" "b"].

Definition dup_input : value := JObj [("a", JStr "x")].

(** The same table on an input in which both sources are present. *)
Definition dup_input_both : value := JObj [("a", JStr "x"); ("b", JStr "y")].

(** An input in which the source of the later entry is the empty string. *)
Definition later_empty_name_input : value :=
  JObj [("a", JStr "x"); ("b", JStr "")].

(** A table with two entries for ["__proto__"], after the one for the name. *)
Definition proto_mappings : list Mapping :=
  [mkMapping "name" "a"; mkMapping "__proto__" "a"; mkMapping "__proto__" "b"].

(** A reply of the search endpoint as the remote system sends it, with
    its flags and scores around the records. *)
Definition full_search_reply : value :=
  JObj [("success", JBool true);
        ("data", JObj [("items",
           JArr [JObj [("result_score", JNum 1);
                       ("item", JObj [("id", JNum 42); ("name", JStr "Jane Doe")])];
                 JObj [("result_score", JNum 0);
                       ("item", JObj [("id", JNum 7); ("name", JStr "Jane Doe")])]])]);
        ("additional_data", JObj [("pagination", JObj [("start", JNum 0)])])].

(** An input with a field that is [null]. *)
Definition null_nick_input : value :=
  JObj [("fullName", JStr "Jane Doe"); ("nick", JNull)].

(** Remote records. *)
Definition jane_42 : value := JObj [("id", JNum 42); ("name", JStr "Jane Doe")].

Definition jane_0 : value := JObj [("id", JNum 0); ("name", JStr "Jane Doe")].

(** The payload of the scenario:
    [{ name: "Jane Doe", email: [{ value: "jane@x.com", primary: true, label: "work" }] }]. *)
Definition jane_payload : gmap string value :=
  <["email" := JArr [JObj [("value", JStr "jane@x.com"); ("primary", JBool true);
                           ("label", JStr "work")]]]>
    (<["name" := JStr "Jane Doe"]> ∅).

(** A transport that answers every [GET] with [found] and rejects every
    other request with the error [e]. *)
Definition axios_failing_upsert (found : value) (e : exn)
    : list request → request → exn + value :=
  λ _ r, match req_method r with
         | GET => inr found
         | _ => inl e
         end.

(** An environment without API key, and one without company domain but
    with a base URL of its own. *)
Definition no_key_env : Env :=
  {| PIPEDRIVE_API_KEY := None;
     PIPEDRIVE_COMPANY_DOMAIN := Some "acme";
     BASE_URL_VAR := None |}.

Definition no_domain_env : Env :=
  {| PIPEDRIVE_API_KEY := Some "key";
     PIPEDRIVE_COMPANY_DOMAIN := None;
     BASE_URL_VAR := Some "https://crm.example/v1" |}.

Definition own_base_env : Env :=
  {| PIPEDRIVE_API_KEY := Some "key";
     PIPEDRIVE_COMPANY_DOMAIN := Some "acme";
     BASE_URL_VAR := Some "https://crm.example/v1" |}.

(** What the program writes on the console: [console.log(label, v)] or
    [console.error(label, v)]. *)
Inductive console : Type :=
  | ConsoleLog (label : string) (v : value)
  | ConsoleError (label : string) (v : value).

(** ** The program *)

Section Sync.

(** lodash's [get(object, path)]. *)
Variable get : value → string → value.

(** The [axios] transport: from the requests already issued and the
    request made, the promise is rejected with an error or resolved with
    a response, of which the program reads the body [data]. *)
Variable axios : list request → request → exn + value.

(** The environment the module is loaded in. *)
Variable env : Env.

Definition API_KEY : value := optString (PIPEDRIVE_API_KEY env).

Definition COMPANY_DOMAIN : value := optString (PIPEDRIVE_COMPANY_DOMAIN env).

Definition BASE_URL : string :=
  toString (js_or (optString (BASE_URL_VAR env))
                  (JStr ("https://" +:+ toString COMPANY_DOMAIN +:+ ".pipedrive.com/v1"))).

(** [await axios(r)]: the request is recorded, the transport decides. *)
Definition await_axios (r : request) : M value :=
  λ tr, (axios tr r, (tr ++ [r])%list).

(** [data.data?.items[0]?.item ?? null] *)
Definition first_item (data : value) : exn + value :=
  d ← getProp data "data";
  if nullish d then mret JNull
  else
    first ← getIndex0 (prop d "items");
    mret (js_coalesce (optProp first "item") JNull).

Definition findPersonByName (name : value) : M value :=
  if negb (truthy API_KEY) || negb (truthy COMPANY_DOMAIN) then
    throw (Error "Missing PIPEDRIVE_API_KEY or PIPEDRIVE_COMPANY_DOMAIN in .env file")
  else
    try_catch
      (data ← await_axios
                {| req_method := GET;
                   req_url := BASE_URL +:+ "/persons/search";
                   req_params := [("term", name); ("fields", JStr "name");
                                  ("exact_match", JBool true);
                                  ("api_token", API_KEY)];
                   req_data := None |};
       lift (first_item data))
      (λ error, throw (Error (formatError "Failed to search for person" error))).

Definition createOrUpdatePerson (personData : gmap string value)
    (personId : value) : M value :=
  let method := if truthy personId then PUT else POST in
  let url := if truthy personId
             then BASE_URL +:+ "/persons/" +:+ toString personId
             else BASE_URL +:+ "/persons" in
  try_catch
    (data ← await_axios
              {| req_method := method;
                 req_url := url;
                 req_params := [("api_token", API_KEY)];
                 req_data := Some personData |};
     lift (getProp data "data"))
    (λ error,
       throw (Error (formatError
                       ("Failed to " +:+
                        (if truthy personId then "update" else "create") +:+
                        " person")
                       error))).

(** The value stored under [pipedriveKey] for a resolved [v]: the
    conditional expression on the right of [acc[pipedriveKey] = ...]. *)
Definition shapeField (pipedriveKey : string) (v : value) : value :=
  if String.eqb pipedriveKey "email" || String.eqb pipedriveKey "phone"
  then JArr [JObj [("value", v); ("primary", JBool true);
                   ("label", JStr (if String.eqb pipedriveKey "email"
                                   then "work" else "home"))]]
  else v.

(** The reducer of [mappings.reduce]: one mapping entry applied to the
    payload built so far. *)
Definition addField (inputData : value) (acc : gmap string value)
    (m : Mapping) : gmap string value :=
  let v := get inputData (inputKey m) in
  if negb (nullish v)
  then setProperty (pipedriveKey m) (shapeField (pipedriveKey m) v) acc
  else acc.

(** [mappings.reduce(..., {})] *)
Definition personData (inputData : value) (mappings : list Mapping)
    : gmap string value :=
  foldl (addField inputData) ∅ mappings.

(** The [try] block of [syncPdPerson]. *)
Definition syncPdPerson_body (inputData : value) (mappings : list Mapping)
    : M value :=
  match find (λ m, String.eqb (pipedriveKey m) "name") mappings with
  | None => throw (Error "No mapping found for 'name' in mappings.json")
  | Some nameMapping =>
      let nameValue := get inputData (inputKey nameMapping) in
      if negb (truthy nameValue) || negb (String.eqb (typeof nameValue) "string")
      then
        throw (Error ("Invalid or missing value for inputKey '" +:+
                      inputKey nameMapping +:+ "' in inputData.json"))
      else
        existingPerson ← findPersonByName nameValue;
        createOrUpdatePerson (personData inputData mappings)
                             (optProp existingPerson "id")
  end.

Definition syncPdPerson (inputData : value) (mappings : list Mapping)
    : M value :=
  try_catch (syncPdPerson_body inputData mappings)
            (λ error, throw (Error (formatError "Error in syncPdPerson" error))).

(** The requests the program can issue. *)
Definition searchRequest (name : value) : request :=
  {| req_method := GET;
     req_url := BASE_URL +:+ "/persons/search";
     req_params := [("term", name); ("fields", JStr "name");
                    ("exact_match", JBool true); ("api_token", API_KEY)];
     req_data := None |}.

Definition createRequest (payload : gmap string value) : request :=
  {| req_method := POST;
     req_url := BASE_URL +:+ "/persons";
     req_params := [("api_token", API_KEY)];
     req_data := Some payload |}.

Definition updateRequest (payload : gmap string value) (id : value) : request :=
  {| req_method := PUT;
     req_url := BASE_URL +:+ "/persons/" +:+ toString id;
     req_params := [("api_token", API_KEY)];
     req_data := Some payload |}.

(** The two messages of the validation steps. *)
Definition noNameMapping : string :=
  "No mapping found for 'name' in mappings.json".

Definition invalidName (nameMapping : Mapping) : string :=
  "Invalid or missing value for inputKey '" +:+ inputKey nameMapping +:+
  "' in inputData.json".

(** The steps of [syncPdPerson] that can fail, after the comments that
    head them in the source; building the payload cannot. *)
Inductive stage : Type :=
  | ValidateMapping
  | ValidateIdentityValue
  | Lookup
  | Upsert.

(** The step at which a run fails, if it does. *)
Definition failedStage (inputData : value) (mappings : list Mapping)
    (tr : list request) : option stage :=
  match find (λ m, String.eqb (pipedriveKey m) "name") mappings with
  | None => Some ValidateMapping
  | Some nameMapping =>
      let nameValue := get inputData (inputKey nameMapping) in
      if negb (truthy nameValue) || negb (String.eqb (typeof nameValue) "string")
      then Some ValidateIdentityValue
      else
        match findPersonByName nameValue tr with
        | (inl _, _) => Some Lookup
        | (inr existingPerson, tr') =>
            match createOrUpdatePerson (personData inputData mappings)
                                       (optProp existingPerson "id") tr' with
            | (inl _, _) => Some Upsert
            | (inr _, _) => None
            end
        end
  end.

(** The request [createOrUpdatePerson] issues for an identifier. *)
Definition upsertRequest (payload : gmap string value) (id : value) : request :=
  if truthy id then updateRequest payload id else createRequest payload.

(** The context under which [createOrUpdatePerson] reports a failure. *)
Definition upsertContext (id : value) : string :=
  "Failed to " +:+ (if truthy id then "update" else "create") +:+ " person".

(** What remains of [syncPdPerson] once the name is validated. *)
Definition lookupThenUpsert (inputData : value) (mappings : list Mapping)
    (nameValue : value) : M value :=
  try_catch
    (existingPerson ← findPersonByName nameValue;
     createOrUpdatePerson (personData inputData mappings)
                          (optProp existingPerson "id"))
    (λ error, throw (Error (formatError "Error in syncPdPerson" error))).

(** The statement that ends the module:
    [syncPdPerson().then(person => console.log("Synced Person:", person))
                   .catch(error => console.error("Sync failed:", error.message))]. *)
Definition run_and_log (inputData : value) (mappings : list Mapping)
    : list request → console * list request :=
  λ tr, match syncPdPerson inputData mappings tr with
        | (inr person, tr') => (ConsoleLog "Synced Person:" person, tr')
        | (inl error, tr') => (ConsoleError "Sync failed:" (JStr (message error)), tr')
        end.

(** ** The field mapper *)

Lemma addField_absent inputData acc m :
  nullish (get inputData (inputKey m)) = true →
  addField inputData acc m = acc.
Proof. intros H. unfold addField. by rewrite H. Qed.

Lemma addField_present inputData acc m :
  nullish (get inputData (inputKey m)) = false →
  addField inputData acc m
  = setProperty (pipedriveKey m)
      (shapeField (pipedriveKey m) (get inputData (inputKey m))) acc.
Proof. intros H. unfold addField. by rewrite H. Qed.

Lemma setProperty_proto v (acc : gmap string value) :
  setProperty "__proto__" v acc = acc.
Proof. done. Qed.

Lemma setProperty_insert k v (acc : gmap string value) :
  k ≠ "__proto__" → setProperty k v acc = <[k := v]> acc.
Proof. intros Hk. unfold setProperty. by apply String.eqb_neq in Hk as ->. Qed.

Lemma lookup_setProperty_ne k k' v (acc : gmap string value) :
  k ≠ k' → setProperty k v acc !! k' = acc !! k'.
Proof.
  intros Hne. unfold setProperty. destruct (String.eqb k "__proto__"); [done|].
  by apply lookup_insert_ne.
Qed.

Lemma lookup_setProperty_eq k v (acc : gmap string value) :
  k ≠ "__proto__" → setProperty k v acc !! k = Some v.
Proof. intros Hk. rewrite setProperty_insert by done. apply lookup_insert_eq. Qed.

Lemma lookup_setProperty_Some k k' v v' (acc : gmap string value) :
  setProperty k v acc !! k' = Some v' →
  acc !! k' = Some v' ∨ (k = k' ∧ v = v').
Proof.
  destruct (decide (k = k')) as [<-|Hne].
  - unfold setProperty. destruct (String.eqb k "__proto__"); [by left|].
    rewrite lookup_insert_eq. intros [= <-]. by right.
  - rewrite lookup_setProperty_ne by done. by left.
Qed.

Lemma shapeField_not_nullish k v :
  nullish v = false → nullish (shapeField k v) = false.
Proof. intros H. unfold shapeField. by case_match. Qed.

(** Entries that do not resolve leave the key as it was. *)
Lemma foldl_addField_absent inputData (l : list Mapping) :
  ∀ (acc : gmap string value) k,
    (∀ m, m ∈ l → pipedriveKey m = k →
          nullish (get inputData (inputKey m)) = true) →
    foldl (addField inputData) acc l !! k = acc !! k.
Proof.
  induction l as [|m l IH]; intros acc k Hall; [done|].
  cbn [foldl]. rewrite IH.
  - destruct (nullish (get inputData (inputKey m))) eqn:Hn.
    + by rewrite addField_absent.
    + rewrite addField_present by done.
      apply lookup_setProperty_ne. intros Hk.
      rewrite (Hall m) in Hn; [done| by left | done].
  - intros m' Hin. apply Hall. by right.
Qed.

(** The last entry of a key that resolves decides the key. *)
Lemma personData_last_present inputData pre m post :
  pipedriveKey m ≠ "__proto__" →
  nullish (get inputData (inputKey m)) = false →
  (∀ m', m' ∈ post → pipedriveKey m' = pipedriveKey m →
         nullish (get inputData (inputKey m')) = true) →
  personData inputData (pre ++ m :: post) !! pipedriveKey m
  = Some (shapeField (pipedriveKey m) (get inputData (inputKey m))).
Proof.
  intros Hk Hm Hpost. unfold personData.
  rewrite foldl_app. cbn [foldl].
  rewrite foldl_addField_absent by done.
  rewrite addField_present by done.
  by apply lookup_setProperty_eq.
Qed.

Lemma personData_skip inputData pre m post :
  nullish (get inputData (inputKey m)) = true →
  personData inputData (pre ++ m :: post) = personData inputData (pre ++ post).
Proof.
  intros Hm. unfold personData. rewrite !foldl_app. cbn [foldl].
  by rewrite addField_absent.
Qed.

Lemma foldl_addField_not_nullish inputData (l : list Mapping) :
  ∀ acc : gmap string value,
    (∀ k v, acc !! k = Some v → nullish v = false) →
    ∀ k v, foldl (addField inputData) acc l !! k = Some v → nullish v = false.
Proof.
  induction l as [|m l IH]; intros acc Hacc; [done|].
  cbn [foldl]. apply IH. intros k v.
  destruct (nullish (get inputData (inputKey m))) eqn:Hn.
  - rewrite addField_absent by done. apply Hacc.
  - rewrite addField_present by done.
    intros [Hv|[_ <-]]%lookup_setProperty_Some.
    + by eapply Hacc.
    + by apply shapeField_not_nullish.
Qed.

(** C4: a mapping entry whose source resolves to [undefined] or [null]
    contributes nothing to the payload (the payload is the one built
    without the entry); a target field all of whose entries resolve so is
    not a key of the payload; and no key of the payload holds [null] or
    [undefined]. *)
Theorem unresolved_entries_are_omitted inputData :
  (∀ pre m post,
     nullish (get inputData (inputKey m)) = true →
     personData inputData (pre ++ m :: post) = personData inputData (pre ++ post))
  ∧ (∀ mappings k,
       (∀ m, m ∈ mappings → pipedriveKey m = k →
             nullish (get inputData (inputKey m)) = true) →
       personData inputData mappings !! k = None)
  ∧ (∀ mappings k v,
       personData inputData mappings !! k = Some v → v ≠ JNull ∧ v ≠ JUndefined).
Proof.
  split; [|split].
  - intros pre m post. apply personData_skip.
  - intros mappings k Hall. unfold personData.
    rewrite foldl_addField_absent by done. apply lookup_empty.
  - intros mappings k v Hv.
    assert (nullish v = false) as Hn.
    { eapply (foldl_addField_not_nullish inputData mappings ∅); [|exact Hv].
      intros k' v'. by rewrite lookup_empty. }
    split; intros ->; discriminate.
Qed.

(** C3: when the entry for ["email"] that decides the key resolves to a
    value [v], the payload maps ["email"] to the one-element collection
    [[{ value: v, primary: true, label: "work" }]]; the entry for
    ["phone"] likewise, with the label ["home"]. The entry decides the key
    when no later entry of the same target field resolves, as is the case
    of the only entry of the field. *)
Theorem email_and_phone_are_wrapped inputData pre m post :
  nullish (get inputData (inputKey m)) = false →
  (∀ m', m' ∈ post → pipedriveKey m' = pipedriveKey m →
         nullish (get inputData (inputKey m')) = true) →
  (pipedriveKey m = "email" →
   personData inputData (pre ++ m :: post) !! "email"
   = Some (JArr [JObj [("value", get inputData (inputKey m));
                       ("primary", JBool true); ("label", JStr "work")]]))
  ∧ (pipedriveKey m = "phone" →
     personData inputData (pre ++ m :: post) !! "phone"
     = Some (JArr [JObj [("value", get inputData (inputKey m));
                         ("primary", JBool true); ("label", JStr "home")]])).
Proof.
  intros Hm Hpost.
  split; intros Hk;
    (assert (pipedriveKey m ≠ "__proto__") as Hproto by (by rewrite Hk));
    pose proof (personData_last_present inputData pre m post Hproto Hm Hpost) as H;
    rewrite Hk in H; exact H.
Qed.

(** C9, as amended: among the entries of one target field, other than
    ["__proto__"], the last one that resolves to a value decides the
    payload's value for the field. A later entry overwrites the earlier
    ones when it resolves, and leaves the value of the last one that
    resolved when it does not. *)
Theorem last_resolving_entry_wins inputData pre m post :
  pipedriveKey m ≠ "__proto__" →
  nullish (get inputData (inputKey m)) = false →
  (∀ m', m' ∈ post → pipedriveKey m' = pipedriveKey m →
         nullish (get inputData (inputKey m')) = true) →
  personData inputData (pre ++ m :: post) !! pipedriveKey m
  = Some (shapeField (pipedriveKey m) (get inputData (inputKey m))).
Proof. apply personData_last_present. Qed.

(** ** Strings and messages *)

Lemma truthy_JStr s : s ≠ "" → truthy (JStr s) = true.
Proof. intros H. cbn. by apply String.eqb_neq in H as ->. Qed.

Lemma nonEmptyString_valid v :
  nonEmptyString v ↔
  negb (truthy v) || negb (String.eqb (typeof v) "string") = false.
Proof.
  split.
  - intros (s & -> & Hs). by rewrite truthy_JStr.
  - intros H. destruct v as [| |b|n|s|l|kv];
      try (cbn in H; rewrite ?orb_true_r in H; discriminate).
    exists s. split; [done|]. intros ->. discriminate.
Qed.

Lemma formatError_Error context m :
  m ≠ "" → formatError context (Error m) = context +:+ ": " +:+ m.
Proof.
  intros H. unfold formatError, js_or. by rewrite truthy_JStr.
Qed.

Lemma append_nonempty_r s t : t ≠ "" → s +:+ t ≠ "".
Proof. intros Ht. destruct s; [done|]. cbv [String.app String.append]. done. Qed.

Lemma append_nonempty_l s t : s ≠ "" → s +:+ t ≠ "".
Proof. intros Hs. destruct s; [done|]. cbv [String.app String.append]. done. Qed.

Lemma formatError_nonempty context e : formatError context e ≠ "".
Proof.
  destruct e; unfold formatError;
    apply append_nonempty_r, append_nonempty_l; done.
Qed.

Lemma upsertContext_nonempty id : upsertContext id ≠ "".
Proof. unfold upsertContext. by apply append_nonempty_l. Qed.

(** ** The remote lookup and the upsert, run *)

Lemma findPersonByName_unconfigured name tr :
  truthy API_KEY && truthy COMPANY_DOMAIN = false →
  findPersonByName name tr
  = (inl (Error "Missing PIPEDRIVE_API_KEY or PIPEDRIVE_COMPANY_DOMAIN in .env file"),
     tr).
Proof.
  intros H. unfold findPersonByName.
  rewrite <- negb_andb, H. done.
Qed.

Lemma findPersonByName_configured name tr :
  truthy API_KEY && truthy COMPANY_DOMAIN = true →
  findPersonByName name tr
  = (match axios tr (searchRequest name) with
     | inl e => inl (Error (formatError "Failed to search for person" e))
     | inr data =>
         match first_item data with
         | inl e => inl (Error (formatError "Failed to search for person" e))
         | inr person => inr person
         end
     end, (tr ++ [searchRequest name])%list).
Proof.
  intros H. unfold findPersonByName.
  rewrite <- negb_andb, H. cbn [negb].
  unfold try_catch, mbind, M_bind, await_axios, lift, throw.
  fold (searchRequest name).
  destruct (axios tr (searchRequest name)) as [e|data]; [done|].
  by destruct (first_item data).
Qed.

Lemma createOrUpdatePerson_run payload id tr :
  createOrUpdatePerson payload id tr
  = (match axios tr (upsertRequest payload id) with
     | inl e => inl (Error (formatError (upsertContext id) e))
     | inr data =>
         match getProp data "data" with
         | inl e => inl (Error (formatError (upsertContext id) e))
         | inr person => inr person
         end
     end, (tr ++ [upsertRequest payload id])%list).
Proof.
  unfold createOrUpdatePerson, upsertRequest, upsertContext,
    updateRequest, createRequest.
  unfold try_catch, mbind, M_bind, await_axios, lift, throw.
  destruct (truthy id);
    (match goal with |- context [axios tr ?r] => destruct (axios tr r) as [e|data] end;
     [done|]; by destruct (getProp data "data")).
Qed.

(** The lookup never yields [undefined]: a missing record is [null]. *)
Lemma first_item_defined data person :
  first_item data = inr person → person ≠ JUndefined.
Proof.
  unfold first_item, getProp, getIndex0.
  destruct (nullish data); [done|]. cbn.
  destruct (nullish (prop data "data")); [by intros [= <-]|].
  destruct (nullish (prop (prop data "data") "items")); [done|]. cbn.
  intros [= <-]. unfold js_coalesce.
  destruct (optProp _ _); done.
Qed.

Lemma first_item_searchResponse persons :
  Forall isObject persons →
  first_item (searchResponse persons) = inr (hd JNull persons).
Proof.
  intros Hall. destruct Hall as [|p persons [kv ->] _]; done.
Qed.

(** Every error [findPersonByName] throws is a plain [Error] that has a
    message. *)
Lemma findPersonByName_throws name tr e tr' :
  findPersonByName name tr = (inl e, tr') →
  ∃ m, e = Error m ∧ m ≠ "".
Proof.
  destruct (truthy API_KEY && truthy COMPANY_DOMAIN) eqn:Hc.
  - rewrite findPersonByName_configured by done.
    destruct (axios tr (searchRequest name)) as [e0|data].
    + intros [= <- _]. eexists. split; [done|]. apply formatError_nonempty.
    + destruct (first_item data) as [e0|person]; [|done].
      intros [= <- _]. eexists. split; [done|]. apply formatError_nonempty.
  - rewrite findPersonByName_unconfigured by done.
    intros [= <- _]. eexists. split; done.
Qed.

Lemma createOrUpdatePerson_throws payload id tr e tr' :
  createOrUpdatePerson payload id tr = (inl e, tr') →
  ∃ e0, e = Error (formatError (upsertContext id) e0).
Proof.
  rewrite createOrUpdatePerson_run.
  destruct (axios tr (upsertRequest payload id)) as [e0|data].
  - intros [= <- _]. by eexists.
  - destruct (getProp data "data") as [e0|person]; [|done].
    intros [= <- _]. by eexists.
Qed.

(** ** The orchestrator, run *)

Lemma find_name_None (mappings : list Mapping) :
  (∀ m, m ∈ mappings → pipedriveKey m ≠ "name") →
  find (λ m, String.eqb (pipedriveKey m) "name") mappings = None.
Proof.
  induction mappings as [|m l IH]; intros Hall; [done|].
  cbn. destruct (String.eqb_spec (pipedriveKey m) "name") as [Heq|_].
  - destruct (Hall m); [by left | done].
  - apply IH. intros m' Hin. apply Hall. by right.
Qed.

Lemma syncPdPerson_no_mapping inputData mappings tr :
  find (λ m, String.eqb (pipedriveKey m) "name") mappings = None →
  syncPdPerson inputData mappings tr
  = (inl (Error ("Error in syncPdPerson" +:+ ": " +:+ noNameMapping)), tr).
Proof.
  intros H. unfold syncPdPerson, syncPdPerson_body, try_catch. by rewrite H.
Qed.

Lemma syncPdPerson_invalid_name inputData mappings nameMapping tr :
  find (λ m, String.eqb (pipedriveKey m) "name") mappings = Some nameMapping →
  ¬ nonEmptyString (get inputData (inputKey nameMapping)) →
  syncPdPerson inputData mappings tr
  = (inl (Error ("Error in syncPdPerson" +:+ ": " +:+ invalidName nameMapping)), tr).
Proof.
  intros H Hv. unfold syncPdPerson, syncPdPerson_body, try_catch. rewrite H.
  rewrite nonEmptyString_valid in Hv. apply not_false_is_true in Hv.
  rewrite Hv. unfold throw. fold (invalidName nameMapping).
  rewrite formatError_Error; [done|].
  unfold invalidName. by apply append_nonempty_l.
Qed.

Lemma syncPdPerson_valid_name inputData mappings nameMapping :
  find (λ m, String.eqb (pipedriveKey m) "name") mappings = Some nameMapping →
  nonEmptyString (get inputData (inputKey nameMapping)) →
  syncPdPerson inputData mappings
  = lookupThenUpsert inputData mappings (get inputData (inputKey nameMapping)).
Proof.
  intros H Hv. unfold syncPdPerson, syncPdPerson_body, lookupThenUpsert.
  rewrite H. apply nonEmptyString_valid in Hv. by rewrite Hv.
Qed.

Lemma syncPdPerson_body_throws inputData mappings tr e tr' :
  syncPdPerson_body inputData mappings tr = (inl e, tr') →
  ∃ m, e = Error m ∧ m ≠ "".
Proof.
  unfold syncPdPerson_body.
  destruct (find _ mappings) as [nameMapping|].
  - destruct (negb _ || negb _).
    + intros [= <- _]. eexists. split; [done|]. by apply append_nonempty_l.
    + unfold mbind, M_bind.
      destruct (findPersonByName _ tr) as [[e0|person] tr0] eqn:Hfind.
      * intros [= <- _]. by eapply findPersonByName_throws.
      * intros (e0 & ->)%createOrUpdatePerson_throws.
        eexists. split; [done|]. apply formatError_nonempty.
  - intros [= <- _]. eexists. split; done.
Qed.

(** Once the name is validated, the requests of a run against a
    configured environment are the search and then the upsert, which
    carries the payload of the field mapper. *)
Lemma lookupThenUpsert_requests inputData mappings nameValue tr data person :
  truthy API_KEY && truthy COMPANY_DOMAIN = true →
  axios tr (searchRequest nameValue) = inr data →
  first_item data = inr person →
  (lookupThenUpsert inputData mappings nameValue tr).2
  = (tr ++ [searchRequest nameValue;
            upsertRequest (personData inputData mappings) (optProp person "id")])%list.
Proof.
  intros Hc Hax Hitem. unfold lookupThenUpsert, try_catch, mbind, M_bind.
  rewrite findPersonByName_configured by done. rewrite Hax, Hitem.
  rewrite createOrUpdatePerson_run.
  rewrite <- app_assoc. cbn [app].
  by destruct (axios _ (upsertRequest _ _)) as [?|d]; [|destruct (getProp d "data")].
Qed.


Lemma lookupThenUpsert_unconfigured inputData mappings nameValue tr :
  truthy API_KEY && truthy COMPANY_DOMAIN = false →
  lookupThenUpsert inputData mappings nameValue tr
  = (inl (Error ("Error in syncPdPerson: " +:+
                 "Missing PIPEDRIVE_API_KEY or PIPEDRIVE_COMPANY_DOMAIN in .env file")),
     tr).
Proof.
  intros Hc. unfold lookupThenUpsert, try_catch, mbind, M_bind.
  by rewrite findPersonByName_unconfigured by done.
Qed.

(** A record with a truthy identifier is updated, at that identifier. *)
Lemma upsertRequest_update payload person :
  truthy (prop person "id") = true → nullish person = false →
  upsertRequest payload (optProp person "id")
  = updateRequest payload (prop person "id").
Proof. intros Hid Hp. unfold upsertRequest, optProp. by rewrite Hp, Hid. Qed.

(** No record: the upsert is called without an identifier, and creates. *)
Lemma upsertRequest_create payload :
  upsertRequest payload (optProp JNull "id") = createRequest payload.
Proof. done. Qed.

Lemma upsertContext_update id :
  truthy id = true → upsertContext id = "Failed to update person".
Proof. intros H. unfold upsertContext. by rewrite H. Qed.

Lemma upsertContext_create id :
  truthy id = false → upsertContext id = "Failed to create person".
Proof. intros H. unfold upsertContext. by rewrite H. Qed.

(** A found record with a truthy identifier is updated at that
    identifier, and when nothing is found the payload is created. *)
Lemma lookupThenUpsert_update inputData mappings nameValue tr person rest :
  truthy API_KEY && truthy COMPANY_DOMAIN = true →
  axios tr (searchRequest nameValue) = inr (searchResponse (person :: rest)) →
  isObject person →
  truthy (prop person "id") = true →
  (lookupThenUpsert inputData mappings nameValue tr).2
  = (tr ++ [searchRequest nameValue;
            updateRequest (personData inputData mappings) (prop person "id")])%list.
Proof.
  intros Hc Hax [kv ->] Hid.
  rewrite (lookupThenUpsert_requests _ _ _ _ _ (JObj kv) Hc Hax) by done.
  by rewrite upsertRequest_update.
Qed.

Lemma lookupThenUpsert_create inputData mappings nameValue tr :
  truthy API_KEY && truthy COMPANY_DOMAIN = true →
  axios tr (searchRequest nameValue) = inr (searchResponse []) →
  (lookupThenUpsert inputData mappings nameValue tr).2
  = (tr ++ [searchRequest nameValue;
            createRequest (personData inputData mappings)])%list.
Proof.
  intros Hc Hax.
  by rewrite (lookupThenUpsert_requests _ _ _ _ _ JNull Hc Hax).
Qed.

(** ** The claims about the runs *)

(** C1, at the identifier 0: when the lookup returns a record whose [id]
    is [0], the run does not update it. The upsert is a [POST] to
    [/persons], a create, and no [PUT] to [/persons/0] is issued. *)
Theorem existing_record_with_id_zero_is_created
    inputData mappings nameMapping tr person rest :
  find (λ m, String.eqb (pipedriveKey m) "name") mappings = Some nameMapping →
  nonEmptyString (get inputData (inputKey nameMapping)) →
  truthy API_KEY && truthy COMPANY_DOMAIN = true →
  axios tr (searchRequest (get inputData (inputKey nameMapping)))
  = inr (searchResponse (person :: rest)) →
  isObject person →
  prop person "id" = JNum 0 →
  (syncPdPerson inputData mappings tr).2
  = (tr ++ [searchRequest (get inputData (inputKey nameMapping));
            createRequest (personData inputData mappings)])%list.
Proof.
  intros Hfind Hname Hc Hax [kv ->] Hid.
  rewrite (syncPdPerson_valid_name _ _ _ Hfind Hname).
  rewrite (lookupThenUpsert_requests _ _ _ _ _ (JObj kv) Hc Hax) by done.
  unfold upsertRequest, optProp. cbn [nullish]. by rewrite Hid.
Qed.

(** C2: with no mapping entry for ["name"] the run fails with the
    configuration error, whatever the transport and the environment, and
    issues no request: the list of requests is as it was. *)
Theorem no_name_mapping_aborts_before_network inputData mappings tr :
  (∀ m, m ∈ mappings → pipedriveKey m ≠ "name") →
  syncPdPerson inputData mappings tr
  = (inl (Error "Error in syncPdPerson: No mapping found for 'name' in mappings.json"),
     tr).
Proof.
  intros Hall. by rewrite syncPdPerson_no_mapping by by apply find_name_None.
Qed.


(** C6, as amended: every failure the orchestrator surfaces is the error
    thrown inside its [try] block, wrapped under the one context
    ["Error in syncPdPerson"], the same whichever step failed, with the
    inner message kept: ["Error in syncPdPerson: <innerMessage>"]. *)
Theorem failures_are_wrapped_with_fixed_context inputData mappings tr e tr' :
  syncPdPerson inputData mappings tr = (inl e, tr') →
  ∃ inner,
    syncPdPerson_body inputData mappings tr = (inl inner, tr')
    ∧ e = Error ("Error in syncPdPerson" +:+ ": " +:+ message inner).
Proof.
  unfold syncPdPerson, try_catch.
  destruct (syncPdPerson_body inputData mappings tr) as [[inner|v] tr0] eqn:Hb;
    [|done].
  intros [= <- <-]. exists inner. split; [done|].
  destruct (syncPdPerson_body_throws _ _ _ _ _ Hb) as (m & -> & Hm).
  by rewrite formatError_Error.
Qed.

Lemma first_item_items body items :
  prop (prop body "data") "items" = JArr items →
  first_item body
  = inr (match items with
         | [] => JNull
         | first :: _ => js_coalesce (optProp first "item") JNull
         end).
Proof.
  intros Hitems. unfold first_item, getProp.
  destruct (nullish body) eqn:Hb; [by destruct body|]. cbn.
  destruct (nullish (prop body "data")) eqn:Hd;
    [by destruct (prop body "data")|].
  rewrite Hitems. by destruct items.
Qed.

(** C7: against a configured environment, for every reply to the search
    that has a list of items under [data.items], the lookup returns the
    record of the first element of the list, and [null] when the list is
    empty. *)
Theorem lookup_returns_first_item_or_null name tr body items :
  truthy API_KEY && truthy COMPANY_DOMAIN = true →
  axios tr (searchRequest name) = inr body →
  prop (prop body "data") "items" = JArr items →
  (items = [] →
   findPersonByName name tr = (inr JNull, (tr ++ [searchRequest name])%list))
  ∧ (∀ first rest record,
       items = first :: rest →
       prop first "item" = record →
       nullish record = false →
       findPersonByName name tr = (inr record, (tr ++ [searchRequest name])%list)).
Proof.
  intros Hc Hax Hitems.
  rewrite findPersonByName_configured by done.
  rewrite Hax, (first_item_items _ _ Hitems).
  split.
  - by intros ->.
  - intros first rest record -> Hrecord Hn.
    unfold js_coalesce, optProp.
    destruct (nullish first) eqn:Hfirst.
    + destruct first; try discriminate; by subst record.
    + by rewrite Hrecord, Hn.
Qed.

(** C8, at the identifier 0: when the upsert is called with the
    identifier [0] and fails, the error it raises names the operation
    ["create"], not ["update"]. *)
Theorem upsert_failure_with_id_zero_names_create payload tr e tr' :
  createOrUpdatePerson payload (JNum 0) tr = (inl e, tr') →
  ∃ e0, e = Error (formatError "Failed to create person" e0).
Proof. apply createOrUpdatePerson_throws. Qed.

(** With a truthy identifier a failure names ["update"], and without an
    identifier it names ["create"]. *)
Lemma upsert_failure_names_operation payload id tr e tr' :
  createOrUpdatePerson payload id tr = (inl e, tr') →
  (truthy id = true → ∃ e0, e = Error (formatError "Failed to update person" e0))
  ∧ (id = JUndefined → ∃ e0, e = Error (formatError "Failed to create person" e0)).
Proof.
  intros (e0 & ->)%createOrUpdatePerson_throws.
  split.
  - intros Hid. exists e0. by rewrite upsertContext_update.
  - intros ->. by exists e0.
Qed.

(** C10, as amended: when the first entry for ["name"], the one the
    validation reads, resolves to the empty string, or to any other falsy
    value, the run fails with the configuration error and issues no
    request. *)
Theorem empty_name_is_rejected_before_network inputData mappings nameMapping tr :
  find (λ m, String.eqb (pipedriveKey m) "name") mappings = Some nameMapping →
  get inputData (inputKey nameMapping) = JStr ""
  ∨ truthy (get inputData (inputKey nameMapping)) = false →
  syncPdPerson inputData mappings tr
  = (inl (Error ("Error in syncPdPerson: Invalid or missing value for inputKey '"
                 +:+ inputKey nameMapping +:+ "' in inputData.json")),
     tr).
Proof.
  intros Hfind Hv.
  rewrite (syncPdPerson_invalid_name _ _ _ _ Hfind); [done|].
  intros (s & Hs & Hne).
  destruct Hv as [Hv|Hv].
  - rewrite Hv in Hs. by injection Hs as <-.
  - by rewrite Hs, truthy_JStr in Hv.
Qed.

(** ** Further properties: the error messages *)

Lemma formatError_remote context m remote :
  remote ≠ "" →
  formatError context (AxiosError m (Some remote)) = context +:+ ": " +:+ remote.
Proof. intros Hne. unfold formatError, js_or. cbn [optString]. by rewrite truthy_JStr. Qed.

Lemma formatError_no_remote context m r :
  r = None ∨ r = Some "" →
  formatError context (AxiosError m r)
  = context +:+ ": " +:+ (if String.eqb m "" then "Unknown API error" else m).
Proof.
  intros [-> | ->]; unfold formatError, js_or; cbn [optString truthy];
    change (String.eqb "" "") with true; cbn [negb];
    by destruct (String.eqb m "").
Qed.

(** X1: for an [AxiosError], the error string of the remote reply is the
    detail of the message when it is there and not empty; otherwise the
    error's own message when not empty; otherwise ["Unknown API error"].
    An empty remote error string counts as absent. *)
Theorem formatError_axios_precedence context m r :
  (∀ remote, r = Some remote → remote ≠ "" →
     formatError context (AxiosError m r) = context +:+ ": " +:+ remote)
  ∧ (r = None ∨ r = Some "" → m ≠ "" →
     formatError context (AxiosError m r) = context +:+ ": " +:+ m)
  ∧ (r = None ∨ r = Some "" → m = "" →
     formatError context (AxiosError m r) = context +:+ ": " +:+ "Unknown API error").
Proof.
  split; [|split].
  - intros remote -> Hne. by apply formatError_remote.
  - intros Hr Hm. rewrite formatError_no_remote by done.
    by apply String.eqb_neq in Hm as ->.
  - intros Hr ->. by rewrite formatError_no_remote.
Qed.

(** X2: whatever the error, the formatted message is the context, a
    colon and a detail that is never empty. For a plain [Error] the
    detail is its message, and ["Unknown error"] when it has none; for an
    [AxiosError] it is the error string of the reply, the message of the
    error or ["Unknown API error"]. *)
Theorem formatError_detail_never_empty context e :
  ∃ detail,
    detail ≠ ""
    ∧ formatError context e = context +:+ ": " +:+ detail
    ∧ (∀ m, e = Error m →
         (m ≠ "" → detail = m) ∧ (m = "" → detail = "Unknown error"))
    ∧ (∀ m r, e = AxiosError m r →
         r = Some detail ∨ detail = m ∨ detail = "Unknown API error").
Proof.
  destruct e as [m r|m].
  - destruct r as [remote|].
    + destruct (decide (remote = "")) as [->|Hne].
      * exists (if String.eqb m "" then "Unknown API error" else m).
        split; [by destruct (String.eqb_spec m "")|].
        split; [apply formatError_no_remote; by right|].
        split; [done|]. intros m' r' [= <- <-].
        destruct (String.eqb m ""); auto.
      * exists remote. split; [done|].
        split; [by apply formatError_remote|].
        split; [done|]. intros m' r' [= <- <-]. by left.
    + exists (if String.eqb m "" then "Unknown API error" else m).
      split; [by destruct (String.eqb_spec m "")|].
      split; [apply formatError_no_remote; by left|].
      split; [done|]. intros m' r' [= <- <-].
      destruct (String.eqb m ""); auto.
  - destruct (decide (m = "")) as [->|Hm].
    + exists "Unknown error". split; [done|]. split; [done|].
      split; [|done]. by intros m [= <-].
    + exists m. split; [done|]. split; [by apply formatError_Error|].
      split; [|done]. by intros m' [= <-].
Qed.

(** ** Further properties: the remote lookup *)

Lemma first_item_no_body body :
  nullish body = true → first_item body = inl (typeError body "data").
Proof. intros Hb. unfold first_item, getProp. by rewrite Hb. Qed.

Lemma first_item_no_items body :
  nullish body = false →
  nullish (prop body "data") = false →
  nullish (prop (prop body "data") "items") = true →
  first_item body = inl (typeError (prop (prop body "data") "items") "0").
Proof.
  intros Hb Hd Hi.
  unfold first_item, getProp, getIndex0, mbind, exn_bind.
  rewrite Hb. cbv beta iota. rewrite Hd, Hi. done.
Qed.

Lemma typeError_message_nonempty v k : message (typeError v k) ≠ "".
Proof. by apply append_nonempty_l. Qed.

Lemma formatError_typeError context v k :
  formatError context (typeError v k)
  = context +:+ ": " +:+ message (typeError v k).
Proof. apply formatError_Error, typeError_message_nonempty. Qed.

(** X3: the lookup refuses to run without credentials. When the API key
    or the company domain is not set, or is empty, it throws the plain
    configuration error and issues no request, whatever the base URL and
    the transport. *)
Theorem lookup_requires_credentials name tr :
  PIPEDRIVE_API_KEY env = None ∨ PIPEDRIVE_API_KEY env = Some ""
  ∨ PIPEDRIVE_COMPANY_DOMAIN env = None ∨ PIPEDRIVE_COMPANY_DOMAIN env = Some "" →
  findPersonByName name tr
  = (inl (Error "Missing PIPEDRIVE_API_KEY or PIPEDRIVE_COMPANY_DOMAIN in .env file"),
     tr).
Proof.
  intros H. apply findPersonByName_unconfigured.
  unfold API_KEY, COMPANY_DOMAIN.
  destruct H as [H|[H|[H|H]]]; rewrite H; cbn; [done|done| |];
    by rewrite andb_false_r.
Qed.

(** X4: with credentials, the lookup issues exactly one request, whatever
    the transport answers: a [GET] of [/persons/search] under the base
    URL, for the exact name in the field ["name"]; and when the transport
    rejects it, the error is reported under ["Failed to search for
    person"]. *)
Theorem lookup_issues_one_search name tr :
  truthy API_KEY && truthy COMPANY_DOMAIN = true →
  (findPersonByName name tr).2
  = (tr ++ [ {| req_method := GET;
                req_url := BASE_URL +:+ "/persons/search";
                req_params := [("term", name); ("fields", JStr "name");
                               ("exact_match", JBool true);
                               ("api_token", API_KEY)];
                req_data := None |} ])%list
  ∧ ∀ e, axios tr (searchRequest name) = inl e →
         (findPersonByName name tr).1
         = inl (Error (formatError "Failed to search for person" e)).
Proof.
  intros Hc. rewrite findPersonByName_configured by done.
  split; [done|]. by intros e ->.
Qed.

(** X5: the lookup never returns [undefined]. What it returns is [null]
    or a value that is neither [null] nor [undefined]. *)
Theorem lookup_never_undefined name tr person tr' :
  findPersonByName name tr = (inr person, tr') →
  person = JNull ∨ nullish person = false.
Proof.
  destruct (truthy API_KEY && truthy COMPANY_DOMAIN) eqn:Hc.
  - rewrite findPersonByName_configured by done.
    destruct (axios tr (searchRequest name)) as [e|data]; [done|].
    destruct (first_item data) as [e|p] eqn:Hitem; [done|].
    intros [= <- _]. apply first_item_defined in Hitem.
    destruct p; auto. done.
  - by rewrite findPersonByName_unconfigured by done.
Qed.

(** X6: a reply without [data] is not an error: when the body of the
    response is there and its [data] is missing or [null], the lookup
    returns [null]. *)
Theorem lookup_without_data_is_null name tr body :
  truthy API_KEY && truthy COMPANY_DOMAIN = true →
  axios tr (searchRequest name) = inr body →
  nullish body = false →
  nullish (prop body "data") = true →
  findPersonByName name tr = (inr JNull, (tr ++ [searchRequest name])%list).
Proof.
  intros Hc Hax Hb Hd. rewrite findPersonByName_configured by done.
  rewrite Hax. unfold first_item, getProp. rewrite Hb. cbn. by rewrite Hd.
Qed.

(** X7: a malformed reply fails the lookup. When the response has no
    body, or has [data] without a list of [items], reading it throws, and
    the lookup reports the failure under ["Failed to search for person"],
    after its one request. *)
Theorem lookup_malformed_response_fails name tr body :
  truthy API_KEY && truthy COMPANY_DOMAIN = true →
  axios tr (searchRequest name) = inr body →
  (nullish body = true →
   findPersonByName name tr
   = (inl (Error ("Failed to search for person" +:+ ": " +:+
                  message (typeError body "data"))),
      (tr ++ [searchRequest name])%list))
  ∧ (nullish body = false →
     nullish (prop body "data") = false →
     nullish (prop (prop body "data") "items") = true →
     findPersonByName name tr
     = (inl (Error ("Failed to search for person" +:+ ": " +:+
                    message (typeError (prop (prop body "data") "items") "0"))),
        (tr ++ [searchRequest name])%list)).
Proof.
  intros Hc Hax. rewrite findPersonByName_configured by done. rewrite Hax.
  split.
  - intros Hb. rewrite (first_item_no_body _ Hb).
    by rewrite formatError_typeError.
  - intros Hb Hd Hi. rewrite (first_item_no_items _ Hb Hd Hi).
    by rewrite formatError_typeError.
Qed.

(** X8: of the list of items only the first element is read. The lookup
    returns its [item], and [null] when the list is empty or the first
    element has no [item], whatever the elements after it hold. *)
Theorem lookup_reads_only_first_item name tr body items :
  truthy API_KEY && truthy COMPANY_DOMAIN = true →
  axios tr (searchRequest name) = inr body →
  prop (prop body "data") "items" = JArr items →
  findPersonByName name tr
  = (inr (match items with
          | [] => JNull
          | first :: _ => js_coalesce (optProp first "item") JNull
          end), (tr ++ [searchRequest name])%list).
Proof.
  intros Hc Hax Hitems. rewrite findPersonByName_configured by done.
  by rewrite Hax, (first_item_items _ _ Hitems).
Qed.

(** ** Further properties: the upsert *)

Lemma length_append_in s t :
  String.length (s +:+ t) = String.length s + String.length t.
Proof.
  induction s as [|c s IH]; [done|].
  change (String c s +:+ t) with (String c (s +:+ t)).
  cbn [String.length]. by rewrite IH.
Qed.

Lemma truthy_JNum n : n ≠ 0%Z → truthy (JNum n) = true.
Proof. intros Hn. cbn. by apply Z.eqb_neq in Hn as ->. Qed.

(** X9: for identifiers that are safe integers other than 0, updates of
    different records go to different URLs, and never to the URL of the
    collection, to which creates are posted. *)
Theorem update_urls_are_distinct payload1 payload2 n1 n2 :
  safeInteger n1 → safeInteger n2 →
  n1 ≠ 0%Z → n2 ≠ 0%Z →
  (req_url (upsertRequest payload1 (JNum n1))
   = req_url (upsertRequest payload2 (JNum n2)) → n1 = n2)
  ∧ req_url (upsertRequest payload1 (JNum n1)) ≠ req_url (createRequest payload2).
Proof.
  intros _ _ H1 H2. unfold upsertRequest.
  rewrite !truthy_JNum by done. cbn [req_url updateRequest createRequest toString].
  split.
  - intros H. apply (inj (String.app BASE_URL)) in H.
    apply (inj (String.app "/persons/")) in H.
    by apply (inj pretty) in H.
  - intros H. apply (inj (String.app BASE_URL)) in H.
    apply (f_equal String.length) in H.
    rewrite length_append_in in H. cbn in H. lia.
Qed.

(** X10: the upsert returns the [data] of the reply as it is. A reply
    whose body has no [data] makes the upsert succeed with [undefined];
    only a missing body makes it fail, under the context of the
    operation. *)
Theorem upsert_returns_data_unchecked payload id tr body :
  axios tr (upsertRequest payload id) = inr body →
  (nullish body = false →
   createOrUpdatePerson payload id tr
   = (inr (prop body "data"), (tr ++ [upsertRequest payload id])%list))
  ∧ (nullish body = true →
     createOrUpdatePerson payload id tr
     = (inl (Error (upsertContext id +:+ ": " +:+ message (typeError body "data"))),
        (tr ++ [upsertRequest payload id])%list)).
Proof.
  intros Hax. rewrite createOrUpdatePerson_run, Hax. unfold getProp.
  split; intros Hb; rewrite Hb; [done|].
  by rewrite formatError_typeError.
Qed.

(** X11: the upsert does not check the credentials. Called when no API
    key is set, it still issues its request, with the payload and an
    [api_token] that is [undefined]. *)
Theorem upsert_does_not_check_credentials payload id tr :
  PIPEDRIVE_API_KEY env = None →
  ∃ r, (createOrUpdatePerson payload id tr).2 = (tr ++ [r])%list
       ∧ req_data r = Some payload
       ∧ req_params r = [("api_token", JUndefined)].
Proof.
  intros Hkey. rewrite createOrUpdatePerson_run.
  exists (upsertRequest payload id). split; [done|].
  unfold upsertRequest, updateRequest, createRequest, API_KEY. rewrite Hkey.
  by destruct (truthy id).
Qed.

(** ** Further properties: the orchestrator *)

(** Every run, by the step it reaches. *)
Lemma lookupThenUpsert_run inputData mappings nameValue tr :
  truthy API_KEY && truthy COMPANY_DOMAIN = true →
  lookupThenUpsert inputData mappings nameValue tr
  = match findPersonByName nameValue tr with
    | (inl e, tr1) =>
        (inl (Error ("Error in syncPdPerson" +:+ ": " +:+ message e)), tr1)
    | (inr existingPerson, tr1) =>
        match axios tr1 (upsertRequest (personData inputData mappings)
                                       (optProp existingPerson "id")) with
        | inl e =>
            (inl (Error ("Error in syncPdPerson" +:+ ": " +:+
                         formatError (upsertContext (optProp existingPerson "id")) e)),
             (tr1 ++ [upsertRequest (personData inputData mappings)
                                    (optProp existingPerson "id")])%list)
        | inr body =>
            (match getProp body "data" with
             | inl e =>
                 inl (Error ("Error in syncPdPerson" +:+ ": " +:+
                             formatError (upsertContext (optProp existingPerson "id")) e))
             | inr person => inr person
             end,
             (tr1 ++ [upsertRequest (personData inputData mappings)
                                    (optProp existingPerson "id")])%list)
        end
    end.
Proof.
  intros Hc. unfold lookupThenUpsert, try_catch, mbind, M_bind.
  destruct (findPersonByName nameValue tr) as [[e|existing] tr1] eqn:Hfind.
  - destruct (findPersonByName_throws _ _ _ _ Hfind) as (m & -> & Hm).
    unfold throw. by rewrite formatError_Error.
  - rewrite createOrUpdatePerson_run.
    destruct (axios tr1 _) as [e|body].
    + unfold throw. by rewrite formatError_Error by apply formatError_nonempty.
    + destruct (getProp body "data") as [e|person]; [|done].
      unfold throw. by rewrite formatError_Error by apply formatError_nonempty.
Qed.

(** The requests a run adds, and what it takes for each to be issued. *)
Lemma syncPdPerson_requests inputData mappings tr :
  (syncPdPerson inputData mappings tr).2 = tr
  ∨ ∃ nameMapping,
      find (λ m, String.eqb (pipedriveKey m) "name") mappings = Some nameMapping
      ∧ nonEmptyString (get inputData (inputKey nameMapping))
      ∧ truthy API_KEY && truthy COMPANY_DOMAIN = true
      ∧ ((syncPdPerson inputData mappings tr).2
         = (tr ++ [searchRequest (get inputData (inputKey nameMapping))])%list
         ∨ ∃ existingPerson,
             (syncPdPerson inputData mappings tr).2
             = (tr ++ [searchRequest (get inputData (inputKey nameMapping));
                       upsertRequest (personData inputData mappings)
                                     (optProp existingPerson "id")])%list).
Proof.
  destruct (find (λ m, String.eqb (pipedriveKey m) "name") mappings)
    as [nameMapping|] eqn:Hfind;
    [|left; by rewrite syncPdPerson_no_mapping].
  destruct (negb (truthy (get inputData (inputKey nameMapping)))
            || negb (String.eqb (typeof (get inputData (inputKey nameMapping))) "string"))
    eqn:Hvalid.
  { left. rewrite (syncPdPerson_invalid_name _ _ _ _ Hfind); [done|].
    rewrite nonEmptyString_valid. by rewrite Hvalid. }
  apply nonEmptyString_valid in Hvalid.
  rewrite (syncPdPerson_valid_name _ _ _ Hfind Hvalid).
  destruct (truthy API_KEY && truthy COMPANY_DOMAIN) eqn:Hc;
    [|left; by rewrite lookupThenUpsert_unconfigured].
  right. exists nameMapping. split; [done|]. split; [done|]. split; [done|].
  rewrite lookupThenUpsert_run by done.
  rewrite findPersonByName_configured by done.
  destruct (axios tr _) as [e|data]; [by left|].
  destruct (first_item data) as [e|existing]; [by left|].
  right. exists existing. rewrite <- app_assoc.
  by destruct (axios _ (upsertRequest _ _)).
Qed.

(** X12: a run issues at most two requests. The first, if any, is the
    search, a [GET] without a body; the second, if any, is a [POST] or a
    [PUT] whose body is the payload built from the mapping table. *)
Theorem sync_issues_search_then_upsert inputData mappings tr :
  ∃ more,
    (syncPdPerson inputData mappings tr).2 = (tr ++ more)%list
    ∧ (length more ≤ 2)%nat
    ∧ (∀ r, more !! 0 = Some r → req_method r = GET ∧ req_data r = None)
    ∧ (∀ r, more !! 1 = Some r →
            req_method r ≠ GET
            ∧ req_data r = Some (personData inputData mappings)).
Proof.
  destruct (syncPdPerson_requests inputData mappings tr)
    as [H|(nm & _ & _ & _ & [H|(existing & H)])].
  - exists []. rewrite app_nil_r. split; [done|]. split; [cbn; lia|].
    split; intros r; by rewrite lookup_nil.
  - eexists. split; [exact H|]. split; [cbn; lia|].
    split; intros r; [by intros [= <-] | done].
  - eexists. split; [exact H|]. split; [cbn; lia|].
    split; intros r; intros [= <-]; [done|].
    unfold upsertRequest. by destruct (truthy _).
Qed.

(** X13: a run that succeeds has issued both requests, the search and
    then the upsert, and its result is the [data] of the reply to the
    upsert. *)
Theorem sync_success_is_two_requests inputData mappings tr person tr' :
  syncPdPerson inputData mappings tr = (inr person, tr') →
  ∃ nameMapping existingPerson body,
    find (λ m, String.eqb (pipedriveKey m) "name") mappings = Some nameMapping
    ∧ findPersonByName (get inputData (inputKey nameMapping)) tr
      = (inr existingPerson,
         (tr ++ [searchRequest (get inputData (inputKey nameMapping))])%list)
    ∧ tr' = (tr ++ [searchRequest (get inputData (inputKey nameMapping));
                    upsertRequest (personData inputData mappings)
                                  (optProp existingPerson "id")])%list
    ∧ axios (tr ++ [searchRequest (get inputData (inputKey nameMapping))])%list
            (upsertRequest (personData inputData mappings)
                           (optProp existingPerson "id"))
      = inr body
    ∧ person = prop body "data".
Proof.
  destruct (find (λ m, String.eqb (pipedriveKey m) "name") mappings)
    as [nameMapping|] eqn:Hfind;
    [|by rewrite syncPdPerson_no_mapping].
  destruct (negb (truthy (get inputData (inputKey nameMapping)))
            || negb (String.eqb (typeof (get inputData (inputKey nameMapping))) "string"))
    eqn:Hvalid.
  { rewrite (syncPdPerson_invalid_name _ _ _ _ Hfind); [done|].
    rewrite nonEmptyString_valid. by rewrite Hvalid. }
  apply nonEmptyString_valid in Hvalid.
  rewrite (syncPdPerson_valid_name _ _ _ Hfind Hvalid).
  destruct (truthy API_KEY && truthy COMPANY_DOMAIN) eqn:Hc;
    [|by rewrite lookupThenUpsert_unconfigured].
  rewrite lookupThenUpsert_run by done.
  destruct (findPersonByName _ tr) as [[e|existing] tr1] eqn:Hlookup; [done|].
  assert (tr1 = (tr ++ [searchRequest (get inputData (inputKey nameMapping))])%list)
    as ->.
  { rewrite findPersonByName_configured in Hlookup by done. by injection Hlookup. }
  destruct (axios _ (upsertRequest _ _)) as [e|body] eqn:Hax; [done|].
  unfold getProp. destruct (nullish body) eqn:Hb; [done|].
  intros [= <- <-]. exists nameMapping, existing, body.
  split; [done|]. split; [done|]. split; [by rewrite <- app_assoc|]. done.
Qed.

(** X14: no request of a run goes out without the API key. Every request
    a run issues carries the key as [api_token], and the key is set and
    not empty. *)
Theorem sync_requests_carry_api_token inputData mappings tr more r :
  (syncPdPerson inputData mappings tr).2 = (tr ++ more)%list →
  r ∈ more →
  ∃ key, PIPEDRIVE_API_KEY env = Some key ∧ key ≠ ""
         ∧ assoc "api_token" (req_params r) = JStr key.
Proof.
  intros Htrace Hin.
  assert (truthy API_KEY = true → ∃ key, PIPEDRIVE_API_KEY env = Some key
            ∧ key ≠ "" ∧ API_KEY = JStr key) as Hkey.
  { unfold API_KEY. destruct (PIPEDRIVE_API_KEY env) as [key|]; [|done].
    intros Ht. exists key. split; [done|]. split; [|done]. by intros ->. }
  destruct (syncPdPerson_requests inputData mappings tr)
    as [H|(nm & _ & _ & Hc & H)].
  - rewrite H in Htrace. rewrite <- (app_nil_r tr) in Htrace at 1.
    apply app_inv_head in Htrace. subst more. by apply not_elem_of_nil in Hin.
  - apply andb_prop in Hc as [Hc _].
    destruct (Hkey Hc) as (key & Hk & Hne & HAPI).
    exists key. split; [done|]. split; [done|]. rewrite <- HAPI.
    destruct H as [H|(existing & H)]; rewrite H in Htrace;
      apply app_inv_head in Htrace; subst more.
    + apply list_elem_of_singleton in Hin. by subst r.
    + apply elem_of_cons in Hin as [->|Hin]; [done|].
      apply list_elem_of_singleton in Hin. subst r.
      unfold upsertRequest.
      destruct (truthy (optProp existing "id")); reflexivity.
Qed.

Lemma credentials_missing :
  PIPEDRIVE_API_KEY env = None ∨ PIPEDRIVE_API_KEY env = Some ""
  ∨ PIPEDRIVE_COMPANY_DOMAIN env = None ∨ PIPEDRIVE_COMPANY_DOMAIN env = Some "" →
  truthy API_KEY && truthy COMPANY_DOMAIN = false.
Proof.
  unfold API_KEY, COMPANY_DOMAIN.
  intros [H|[H|[H|H]]]; rewrite H; cbn; [done|done| |]; by rewrite andb_false_r.
Qed.

(** X15: the credentials are checked after the mapping and the name.
    A run whose name is valid but whose API key or company domain is
    missing fails with the wrapped configuration error, and issues no
    request. *)
Theorem sync_reports_missing_credentials inputData mappings nameMapping tr :
  find (λ m, String.eqb (pipedriveKey m) "name") mappings = Some nameMapping →
  nonEmptyString (get inputData (inputKey nameMapping)) →
  PIPEDRIVE_API_KEY env = None ∨ PIPEDRIVE_API_KEY env = Some ""
  ∨ PIPEDRIVE_COMPANY_DOMAIN env = None ∨ PIPEDRIVE_COMPANY_DOMAIN env = Some "" →
  syncPdPerson inputData mappings tr
  = (inl (Error "Error in syncPdPerson: Missing PIPEDRIVE_API_KEY or PIPEDRIVE_COMPANY_DOMAIN in .env file"),
     tr).
Proof.
  intros Hfind Hname Henv.
  rewrite (syncPdPerson_valid_name _ _ _ Hfind Hname).
  by rewrite lookupThenUpsert_unconfigured by by apply credentials_missing.
Qed.

(** X16: when the transport rejects the search, the run stops there. No
    upsert is attempted, and the failure carries both contexts, the
    orchestrator's and the lookup's, before the detail. *)
Theorem sync_lookup_failure_stops_the_run inputData mappings nameMapping tr e :
  find (λ m, String.eqb (pipedriveKey m) "name") mappings = Some nameMapping →
  nonEmptyString (get inputData (inputKey nameMapping)) →
  truthy API_KEY && truthy COMPANY_DOMAIN = true →
  axios tr (searchRequest (get inputData (inputKey nameMapping))) = inl e →
  syncPdPerson inputData mappings tr
  = (inl (Error ("Error in syncPdPerson" +:+ ": " +:+
                 formatError "Failed to search for person" e)),
     (tr ++ [searchRequest (get inputData (inputKey nameMapping))])%list).
Proof.
  intros Hfind Hname Hc Hax.
  rewrite (syncPdPerson_valid_name _ _ _ Hfind Hname).
  rewrite lookupThenUpsert_run by done.
  rewrite findPersonByName_configured by done. by rewrite Hax.
Qed.

(** X17: when the transport rejects the upsert, the run fails after both
    requests, with the orchestrator's context and then the context of the
    operation: nothing is retried and nothing is undone. *)
Theorem sync_upsert_failure_is_reported inputData mappings nameMapping tr
    data existingPerson e :
  find (λ m, String.eqb (pipedriveKey m) "name") mappings = Some nameMapping →
  nonEmptyString (get inputData (inputKey nameMapping)) →
  truthy API_KEY && truthy COMPANY_DOMAIN = true →
  axios tr (searchRequest (get inputData (inputKey nameMapping))) = inr data →
  first_item data = inr existingPerson →
  axios (tr ++ [searchRequest (get inputData (inputKey nameMapping))])%list
        (upsertRequest (personData inputData mappings) (optProp existingPerson "id"))
  = inl e →
  syncPdPerson inputData mappings tr
  = (inl (Error ("Error in syncPdPerson" +:+ ": " +:+
                 formatError (upsertContext (optProp existingPerson "id")) e)),
     (tr ++ [searchRequest (get inputData (inputKey nameMapping));
             upsertRequest (personData inputData mappings)
                           (optProp existingPerson "id")])%list).
Proof.
  intros Hfind Hname Hc Hax Hitem Hup.
  rewrite (syncPdPerson_valid_name _ _ _ Hfind Hname).
  rewrite lookupThenUpsert_run by done.
  rewrite findPersonByName_configured by done. rewrite Hax, Hitem, Hup.
  by rewrite <- app_assoc.
Qed.

(** X18: the outcome of a run is written on the console once. A result
    goes to [console.log] under ["Synced Person:"]; a failure goes to
    [console.error] under ["Sync failed:"], as a message that starts with
    ["Error in syncPdPerson: "] and goes on with a detail that is not
    empty. *)
Theorem run_and_log_outcome inputData mappings tr :
  match run_and_log inputData mappings tr with
  | (ConsoleLog label v, tr') =>
      label = "Synced Person:"
      ∧ syncPdPerson inputData mappings tr = (inr v, tr')
  | (ConsoleError label v, tr') =>
      label = "Sync failed:"
      ∧ ∃ inner, inner ≠ ""
          ∧ v = JStr ("Error in syncPdPerson" +:+ ": " +:+ inner)
          ∧ syncPdPerson inputData mappings tr
            = (inl (Error ("Error in syncPdPerson" +:+ ": " +:+ inner)), tr')
  end.
Proof.
  unfold run_and_log, syncPdPerson, try_catch.
  destruct (syncPdPerson_body inputData mappings tr) as [[e|person] tr'] eqn:Hb;
    [|done].
  destruct (syncPdPerson_body_throws _ _ _ _ _ Hb) as (m & -> & Hm).
  unfold throw. rewrite formatError_Error by done.
  split; [done|]. by exists m.
Qed.

(** X19: a base URL set in the environment, and not empty, is the prefix
    of the URL of every request, and the company domain plays no part in
    them; without it the URLs of every request are built on the company
    domain. The identifier of an update is a safe integer. *)
Theorem base_url_override name payload n base :
  safeInteger n →
  (BASE_URL_VAR env = Some base ∧ base ≠ "")
  ∨ ((BASE_URL_VAR env = None ∨ BASE_URL_VAR env = Some "")
     ∧ ∃ domain, PIPEDRIVE_COMPANY_DOMAIN env = Some domain
                 ∧ base = "https://" +:+ domain +:+ ".pipedrive.com/v1") →
  req_url (searchRequest name) = base +:+ "/persons/search"
  ∧ req_url (createRequest payload) = base +:+ "/persons"
  ∧ req_url (updateRequest payload (JNum n)) = base +:+ "/persons/" +:+ pretty n.
Proof.
  intros _ Hbase.
  assert (BASE_URL = base) as Heq.
  { unfold BASE_URL, js_or, COMPANY_DOMAIN.
    destruct Hbase as [[Hb Hne]|[Hb (domain & Hd & ->)]].
    - rewrite Hb. cbn [optString]. by rewrite truthy_JStr.
    - rewrite Hd. by destruct Hb as [-> | ->]. }
  unfold searchRequest, createRequest, updateRequest. cbn [req_url toString].
  by rewrite Heq.
Qed.

(** ** Further properties: the payload *)

Lemma foldl_addField_lookup inputData (l : list Mapping) :
  ∀ (acc : gmap string value) k v,
    foldl (addField inputData) acc l !! k = Some v →
    acc !! k = Some v
    ∨ ∃ m, m ∈ l ∧ pipedriveKey m = k
           ∧ nullish (get inputData (inputKey m)) = false
           ∧ v = shapeField k (get inputData (inputKey m)).
Proof.
  induction l as [|m l IH]; intros acc k v Hv; [by left|].
  cbn [foldl] in Hv. apply IH in Hv as [Hv|(m' & Hin & Hk & Hn & Hv)].
  - destruct (nullish (get inputData (inputKey m))) eqn:Hn.
    + rewrite addField_absent in Hv by done. by left.
    + rewrite addField_present in Hv by done.
      apply lookup_setProperty_Some in Hv as [Hv|[<- <-]]; [by left|].
      right. exists m. split; [by left|]. done.
  - right. exists m'. split; [by right|]. done.
Qed.

Lemma foldl_addField_is_Some inputData (l : list Mapping) :
  ∀ (acc : gmap string value) k,
    k ≠ "__proto__" →
    is_Some (acc !! k)
    ∨ (∃ m, m ∈ l ∧ pipedriveKey m = k
            ∧ nullish (get inputData (inputKey m)) = false) →
    is_Some (foldl (addField inputData) acc l !! k).
Proof.
  induction l as [|m l IH]; intros acc k Hproto H.
  - destruct H as [H|(m & Hin & _)]; [done|]. by apply not_elem_of_nil in Hin.
  - cbn [foldl]. apply IH; [done|].
    destruct H as [H|(m' & Hin & Hk & Hn)].
    + left. unfold addField. destruct (negb _); [|done].
      destruct (decide (pipedriveKey m = k)) as [<-|Hne].
      * by rewrite lookup_setProperty_eq.
      * by rewrite lookup_setProperty_ne.
    + apply elem_of_cons in Hin as [->|Hin].
      * left. rewrite addField_present by done. rewrite <- Hk.
        rewrite lookup_setProperty_eq; [done|]. by rewrite Hk.
      * right. by exists m'.
Qed.



(** X20: the payload holds nothing but what the mapping table puts in
    it. Each of its keys is the target field of an entry whose source
    resolves in the input, and holds that value, shaped for its field. *)
Theorem payload_values_come_from_mappings inputData mappings k v :
  personData inputData mappings !! k = Some v →
  ∃ m, m ∈ mappings ∧ pipedriveKey m = k
       ∧ nullish (get inputData (inputKey m)) = false
       ∧ v = shapeField k (get inputData (inputKey m)).
Proof.
  intros Hv. apply foldl_addField_lookup in Hv as [Hv|Hv]; [|done].
  by rewrite lookup_empty in Hv.
Qed.

(** X21: every payload a run sends has a ["name"]: the body of each
    request of a run that has one maps ["name"] to a value. *)
Theorem sent_payload_has_a_name inputData mappings tr more r payload :
  (syncPdPerson inputData mappings tr).2 = (tr ++ more)%list →
  r ∈ more →
  req_data r = Some payload →
  ∃ v, payload !! "name" = Some v ∧ nullish v = false.
Proof.
  intros Htrace Hin Hdata.
  destruct (syncPdPerson_requests inputData mappings tr)
    as [H|(nm & Hfind & (name & Hname & _) & _ & H)].
  { rewrite H in Htrace. rewrite <- (app_nil_r tr) in Htrace at 1.
    apply app_inv_head in Htrace. subst more. by apply not_elem_of_nil in Hin. }
  assert (payload = personData inputData mappings) as ->.
  { destruct H as [H|(existing & H)]; rewrite H in Htrace;
      apply app_inv_head in Htrace; subst more.
    - apply list_elem_of_singleton in Hin. by subst r.
    - apply elem_of_cons in Hin as [->|Hin]; [done|].
      apply list_elem_of_singleton in Hin. subst r.
      unfold upsertRequest in Hdata.
      destruct (truthy (optProp existing "id")); by injection Hdata. }
  destruct (foldl_addField_is_Some inputData mappings ∅ "name") as [v Hv];
    [done| |].
  { right. exists nm. apply find_some in Hfind as [Hin' Hk].
    split; [by apply list_elem_of_In|]. split; [by apply String.eqb_eq|].
    by rewrite Hname. }
  exists v. split; [done|].
  eapply (foldl_addField_not_nullish inputData mappings ∅); [|exact Hv].
  intros k' v'. by rewrite lookup_empty.
Qed.


(** X23: a field other than ["email"], ["phone"] and ["__proto__"] is
    copied as it is. The payload holds the resolved value itself, of
    whatever type, under the target field of the entry that decides it;
    the field names are compared exactly, so ["Email"] is copied too. *)
Theorem plain_fields_are_copied inputData pre m post :
  pipedriveKey m ≠ "email" →
  pipedriveKey m ≠ "phone" →
  pipedriveKey m ≠ "__proto__" →
  nullish (get inputData (inputKey m)) = false →
  (∀ m', m' ∈ post → pipedriveKey m' = pipedriveKey m →
         nullish (get inputData (inputKey m')) = true) →
  personData inputData (pre ++ m :: post) !! pipedriveKey m
  = Some (get inputData (inputKey m)).
Proof.
  intros He Hp Hproto Hm Hpost.
  rewrite personData_last_present by done. f_equal.
  unfold shapeField.
  apply String.eqb_neq in He as ->. by apply String.eqb_neq in Hp as ->.
Qed.

(** X24: with several entries for ["name"], the search and the payload
    can disagree. The name searched for is the one the first of them
    resolves to, while the name in the payload is the one of the last of
    them that resolves, wherever the entries stand in the table. *)
Theorem search_uses_first_name_payload_the_last
    inputData mappings nameMapping pre m post tr :
  find (λ m, String.eqb (pipedriveKey m) "name") mappings = Some nameMapping →
  nonEmptyString (get inputData (inputKey nameMapping)) →
  mappings = (pre ++ m :: post)%list →
  pipedriveKey m = "name" →
  nullish (get inputData (inputKey m)) = false →
  (∀ m', m' ∈ post → pipedriveKey m' = "name" →
         nullish (get inputData (inputKey m')) = true) →
  truthy API_KEY && truthy COMPANY_DOMAIN = true →
  (∃ rest,
     (syncPdPerson inputData mappings tr).2
     = (tr ++ searchRequest (get inputData (inputKey nameMapping)) :: rest)%list)
  ∧ personData inputData mappings !! "name"
    = Some (get inputData (inputKey m)).
Proof.
  intros Hfind Hname -> Hk Hm Hpost Hc.
  split.
  - rewrite (syncPdPerson_valid_name _ _ _ Hfind Hname).
    rewrite lookupThenUpsert_run by done.
    rewrite findPersonByName_configured by done.
    destruct (axios tr _) as [e|data]; [by exists []|].
    destruct (first_item data) as [e|existing]; [by exists []|].
    eexists. destruct (axios _ (upsertRequest _ _));
      cbn [snd]; by rewrite <- app_assoc.
  - assert (pipedriveKey m ≠ "__proto__") as Hproto by (by rewrite Hk).
    pose proof (personData_last_present inputData pre m post Hproto Hm) as H.
    rewrite Hk in H. rewrite H; [done|].
    intros m' Hin Hk'. by apply Hpost.
Qed.


End Sync.

(** ** The scenarios of the specification *)

(** The lookup finds nothing: the payload is sent to create. *)
Example scenario_create :
  syncPdPerson get_dotted
    (axios_answering (searchResponse []) (personResponse jane_42))
    acme_env jane_input jane_mappings []
  = (inr jane_42,
     [ {| req_method := GET;
          req_url := "https://acme.pipedrive.com/v1/persons/search";
          req_params := [("term", JStr "Jane Doe"); ("fields", JStr "name");
                         ("exact_match", JBool true); ("api_token", JStr "key")];
          req_data := None |};
       {| req_method := POST;
          req_url := "https://acme.pipedrive.com/v1/persons";
          req_params := [("api_token", JStr "key")];
          req_data := Some jane_payload |} ]).
Proof. vm_compute. reflexivity. Qed.

(** The lookup finds the record 42: the same payload is sent to update it. *)
Example scenario_update :
  syncPdPerson get_dotted
    (axios_answering (searchResponse [jane_42]) (personResponse jane_42))
    acme_env jane_input jane_mappings []
  = (inr jane_42,
     [ {| req_method := GET;
          req_url := "https://acme.pipedrive.com/v1/persons/search";
          req_params := [("term", JStr "Jane Doe"); ("fields", JStr "name");
                         ("exact_match", JBool true); ("api_token", JStr "key")];
          req_data := None |};
       {| req_method := PUT;
          req_url := "https://acme.pipedrive.com/v1/persons/42";
          req_params := [("api_token", JStr "key")];
          req_data := Some jane_payload |} ]).
Proof. vm_compute. reflexivity. Qed.

(** The remote error message is preferred to the transport's. *)
Example scenario_remote_error :
  syncPdPerson get_dotted
    (axios_rejecting (AxiosError "Request failed with status code 401"
                                 (Some "unauthorized access")))
    acme_env jane_input jane_mappings []
  = (inl (Error "Error in syncPdPerson: Failed to search for person: unauthorized access"),
     [searchRequest acme_env (JStr "Jane Doe")]).
Proof. vm_compute. reflexivity. Qed.

(** ** The claims on concrete runs *)

Lemma length_append s t :
  String.length (s +:+ t) = String.length s + String.length t.
Proof.
  induction s as [|c s IH]; [done|].
  change (String c s +:+ t) with (String c (s +:+ t)).
  cbn [String.length]. by rewrite IH.
Qed.

Lemma append_cancel_r s1 s2 t : s1 +:+ t = s2 +:+ t → s1 = s2.
Proof.
  revert s2. induction s1 as [|c s1 IH]; intros [|d s2] H; [done| | |].
  - apply (f_equal String.length) in H.
    change (String.length t = S (String.length (s2 +:+ t))) in H.
    rewrite length_append in H. lia.
  - apply (f_equal String.length) in H.
    change (S (String.length (s1 +:+ t)) = String.length t) in H.
    rewrite length_append in H. lia.
  - change (String c (s1 +:+ t) = String d (s2 +:+ t)) in H.
    injection H as -> H. f_equal. by apply IH.
Qed.

Lemma existing_record_with_id_zero_witness :
  let axios := axios_answering (searchResponse [jane_0]) (personResponse jane_42) in
  find (λ m, String.eqb (pipedriveKey m) "name") jane_mappings
  = Some (mkMapping "name" "fullName")
  ∧ (syncPdPerson get_dotted axios acme_env jane_input jane_mappings []).2
    = [searchRequest acme_env (JStr "Jane Doe");
       createRequest acme_env (personData get_dotted jane_input jane_mappings)].
Proof.
  intros axios. split; [reflexivity|].
  apply (existing_record_with_id_zero_is_created get_dotted axios acme_env
           jane_input jane_mappings (mkMapping "name" "fullName") [] jane_0 []).
  - reflexivity.
  - exists "Jane Doe". split; [reflexivity | discriminate].
  - reflexivity.
  - reflexivity.
  - by eexists.
  - reflexivity.
Defined.

Lemma no_name_mapping_witness :
  (∀ m, m ∈ [mkMapping "email" "contact.email"] → pipedriveKey m ≠ "name")
  ∧ syncPdPerson get_dotted (axios_rejecting (Error "offline")) acme_env
      jane_input [mkMapping "email" "contact.email"] []
    = (inl (Error "Error in syncPdPerson: No mapping found for 'name' in mappings.json"),
       []).
Proof.
  assert (∀ m, m ∈ [mkMapping "email" "contact.email"] → pipedriveKey m ≠ "name")
    as Hall.
  { intros m Hin. apply list_elem_of_singleton in Hin. subst m. discriminate. }
  split; [exact Hall|].
  apply (no_name_mapping_aborts_before_network get_dotted
           (axios_rejecting (Error "offline")) acme_env jane_input
           [mkMapping "email" "contact.email"] [] Hall).
Defined.

Lemma email_and_phone_witness :
  nullish (get_dotted jane_input "contact.email") = false
  ∧ personData get_dotted jane_input jane_mappings !! "email"
    = Some (JArr [JObj [("value", JStr "jane@x.com"); ("primary", JBool true);
                        ("label", JStr "work")]]).
Proof.
  split; [reflexivity|].
  refine (proj1 (email_and_phone_are_wrapped get_dotted jane_input
                   [mkMapping "name" "fullName"]
                   (mkMapping "email" "contact.email") [] _ _) _).
  - reflexivity.
  - intros m' Hin. by apply not_elem_of_nil in Hin.
  - reflexivity.
Defined.

Lemma unresolved_entries_witness :
  nullish (get_dotted null_nick_input "nick") = true
  ∧ personData get_dotted null_nick_input
      [mkMapping "name" "fullName"; mkMapping "nick" "nick"]
    = personData get_dotted null_nick_input [mkMapping "name" "fullName"]
  ∧ personData get_dotted null_nick_input
      [mkMapping "name" "fullName"; mkMapping "nick" "nick"] !! "nick" = None.
Proof.
  split; [reflexivity|]. split.
  - apply (proj1 (unresolved_entries_are_omitted get_dotted null_nick_input)
             [mkMapping "name" "fullName"] (mkMapping "nick" "nick") []).
    reflexivity.
  - apply (proj1 (proj2 (unresolved_entries_are_omitted get_dotted null_nick_input))).
    intros m Hin Hk.
    apply elem_of_cons in Hin as [->|Hin]; [discriminate|].
    apply list_elem_of_singleton in Hin. subst m. reflexivity.
Defined.


Lemma failures_are_wrapped_witness :
  let axios := axios_rejecting (AxiosError "boom" None) in
  syncPdPerson get_dotted axios acme_env jane_input jane_mappings []
  = (inl (Error "Error in syncPdPerson: Failed to search for person: boom"),
     [searchRequest acme_env (JStr "Jane Doe")])
  ∧ ∃ inner,
      syncPdPerson_body get_dotted axios acme_env jane_input jane_mappings []
      = (inl inner, [searchRequest acme_env (JStr "Jane Doe")])
      ∧ Error "Error in syncPdPerson: Failed to search for person: boom"
        = Error ("Error in syncPdPerson" +:+ ": " +:+ message inner).
Proof.
  intros axios.
  assert (syncPdPerson get_dotted axios acme_env jane_input jane_mappings []
          = (inl (Error "Error in syncPdPerson: Failed to search for person: boom"),
             [searchRequest acme_env (JStr "Jane Doe")])) as Hrun
    by (vm_compute; reflexivity).
  split; [exact Hrun|].
  exact (failures_are_wrapped_with_fixed_context get_dotted axios acme_env
           jane_input jane_mappings [] _ _ Hrun).
Defined.

Lemma lookup_returns_first_item_witness :
  let axios := axios_answering full_search_reply (personResponse jane_42) in
  axios [] (searchRequest acme_env (JStr "Jane Doe")) = inr full_search_reply
  ∧ findPersonByName axios acme_env (JStr "Jane Doe") []
    = (inr jane_42, [searchRequest acme_env (JStr "Jane Doe")]).
Proof.
  intros axios. split; [reflexivity|].
  refine (proj2 (lookup_returns_first_item_or_null axios acme_env
                   (JStr "Jane Doe") [] full_search_reply _ eq_refl eq_refl eq_refl)
            _ _ jane_42 eq_refl eq_refl eq_refl).
Defined.

Lemma upsert_failure_with_id_zero_witness :
  let axios := axios_rejecting (AxiosError "boom" None) in
  createOrUpdatePerson axios acme_env jane_payload (JNum 0) []
  = (inl (Error "Failed to create person: boom"),
     [createRequest acme_env jane_payload])
  ∧ ∃ e0, Error "Failed to create person: boom"
          = Error (formatError "Failed to create person" e0).
Proof.
  intros axios.
  assert (createOrUpdatePerson axios acme_env jane_payload (JNum 0) []
          = (inl (Error "Failed to create person: boom"),
             [createRequest acme_env jane_payload])) as Hrun
    by reflexivity.
  split; [exact Hrun|].
  exact (upsert_failure_with_id_zero_names_create axios acme_env jane_payload
           [] _ _ Hrun).
Defined.

Lemma last_resolving_entry_witness :
  nullish (get_dotted dup_input_both "b") = false
  ∧ personData get_dotted dup_input_both dup_mappings !! "name" = Some (JStr "y").
Proof.
  split; [reflexivity|].
  apply (last_resolving_entry_wins get_dotted dup_input_both
           [mkMapping "name" "a"] (mkMapping "name" "b") []).
  - discriminate.
  - reflexivity.
  - intros m' Hin. by apply not_elem_of_nil in Hin.
Defined.

Lemma empty_name_witness :
  get_dotted empty_name_input "fullName" = JStr ""
  ∧ syncPdPerson get_dotted (axios_rejecting (Error "offline")) acme_env
      empty_name_input jane_mappings []
    = (inl (Error "Error in syncPdPerson: Invalid or missing value for inputKey 'fullName' in inputData.json"),
       []).
Proof.
  split; [reflexivity|].
  apply (empty_name_is_rejected_before_network get_dotted
           (axios_rejecting (Error "offline")) acme_env empty_name_input
           jane_mappings (mkMapping "name" "fullName") [] eq_refl).
  left. reflexivity.
Defined.

(** ** Where the claims fail *)


(** C6, as stated, fails: no assignment of a context to the steps tells
    the steps apart and is the prefix of every surfaced failure. A run
    that fails on the mapping table and a run that fails in the lookup
    are both reported under ["Error in syncPdPerson"]. *)
Lemma context_does_not_name_the_stage :
  ¬ ∃ context : stage → string,
      (∀ s1 s2, context s1 = context s2 → s1 = s2)
      ∧ ∀ get axios env inputData mappings tr s inner tr',
          failedStage get axios env inputData mappings tr = Some s →
          syncPdPerson_body get axios env inputData mappings tr = (inl inner, tr') →
          syncPdPerson get axios env inputData mappings tr
          = (inl (Error (context s +:+ ": " +:+ message inner)), tr').
Proof.
  intros (context & Hinj & Hwrap).
  pose (axios := axios_rejecting (AxiosError "boom" None)).
  assert (context ValidateMapping = "Error in syncPdPerson") as H1.
  { pose proof (Hwrap get_dotted axios acme_env jane_input [] []
                  ValidateMapping (Error noNameMapping) [] eq_refl eq_refl) as H.
    injection H as H. symmetry.
    by apply (append_cancel_r _ _ (": " +:+ noNameMapping)). }
  assert (context Lookup = "Error in syncPdPerson") as H2.
  { pose proof (Hwrap get_dotted axios acme_env jane_input jane_mappings []
                  Lookup (Error "Failed to search for person: boom")
                  [searchRequest acme_env (JStr "Jane Doe")] eq_refl eq_refl) as H.
    injection H as H. symmetry.
    by apply (append_cancel_r _ _ (": " +:+ "Failed to search for person: boom")). }
  assert (ValidateMapping = Lookup) as Heq by (apply Hinj; congruence).
  discriminate Heq.
Qed.

(** C9, as stated, fails in two ways. When the later entry does not
    resolve: of the two entries for ["name"], the later one reads a source
    that is not in the input, and the payload holds the value of the
    earlier one. And for the target field ["__proto__"]: both entries
    resolve, and the payload has no such key at all. *)
Lemma later_entry_does_not_always_win :
  (get_dotted dup_input "a" = JStr "x"
   ∧ get_dotted dup_input "b" = JUndefined
   ∧ personData get_dotted dup_input dup_mappings !! "name" = Some (JStr "x")
   ∧ personData get_dotted dup_input dup_mappings !! "name"
     ≠ Some (shapeField "name" (get_dotted dup_input "b")))
  ∧ (get_dotted dup_input_both "a" = JStr "x"
     ∧ get_dotted dup_input_both "b" = JStr "y"
     ∧ personData get_dotted dup_input_both proto_mappings !! "__proto__" = None
     ∧ personData get_dotted dup_input_both proto_mappings
       = <["name" := JStr "x"]> ∅).
Proof. repeat split. discriminate. Qed.

(** C10, as stated, fails when the entry that resolves to the empty
    string is not the first entry for ["name"]: the first one resolves to
    ["x"], the run searches for it, creates the record and succeeds, with
    the empty name of the later entry in the payload. *)
Lemma later_empty_name_is_not_rejected :
  get_dotted later_empty_name_input "a" = JStr "x"
  ∧ get_dotted later_empty_name_input "b" = JStr ""
  ∧ syncPdPerson get_dotted
      (axios_answering (searchResponse []) (personResponse jane_42))
      acme_env later_empty_name_input dup_mappings []
    = (inr jane_42,
       [searchRequest acme_env (JStr "x");
        createRequest acme_env (<["name" := JStr ""]> ∅)]).
Proof. repeat split. Qed.

(** ** The further properties on concrete runs *)

Lemma formatError_axios_precedence_witness :
  "denied" ≠ ""
  ∧ formatError "Failed to search for person" (AxiosError "boom" (Some "denied"))
    = "Failed to search for person: denied".
Proof.
  split; [discriminate|].
  apply (proj1 (formatError_axios_precedence "Failed to search for person"
                  "boom" (Some "denied")) "denied" eq_refl).
  discriminate.
Defined.

Lemma lookup_requires_credentials_witness :
  PIPEDRIVE_COMPANY_DOMAIN no_domain_env = None
  ∧ findPersonByName (axios_answering (searchResponse [jane_42]) JNull)
      no_domain_env (JStr "Jane Doe") []
    = (inl (Error "Missing PIPEDRIVE_API_KEY or PIPEDRIVE_COMPANY_DOMAIN in .env file"),
       []).
Proof.
  split; [reflexivity|].
  apply (lookup_requires_credentials
           (axios_answering (searchResponse [jane_42]) JNull) no_domain_env
           (JStr "Jane Doe") []).
  right. right. left. reflexivity.
Defined.

Lemma lookup_issues_one_search_witness :
  let axios := axios_rejecting (AxiosError "boom" (Some "denied")) in
  (findPersonByName axios acme_env (JStr "Jane Doe") []).2
  = [ {| req_method := GET;
         req_url := "https://acme.pipedrive.com/v1/persons/search";
         req_params := [("term", JStr "Jane Doe"); ("fields", JStr "name");
                        ("exact_match", JBool true); ("api_token", JStr "key")];
         req_data := None |} ]
  ∧ (findPersonByName axios acme_env (JStr "Jane Doe") []).1
    = inl (Error "Failed to search for person: denied").
Proof.
  intros axios.
  destruct (lookup_issues_one_search axios acme_env (JStr "Jane Doe") [] eq_refl)
    as [Htrace Hfail].
  split; [exact Htrace|].
  exact (Hfail (AxiosError "boom" (Some "denied")) eq_refl).
Defined.

Lemma lookup_never_undefined_witness :
  let axios := axios_answering (JObj [("data", JObj [("items", JArr [JObj []])])])
                               JNull in
  findPersonByName axios acme_env (JStr "Jane Doe") []
  = (inr JNull, [searchRequest acme_env (JStr "Jane Doe")])
  ∧ (JNull = JNull ∨ nullish JNull = false).
Proof.
  intros axios.
  assert (findPersonByName axios acme_env (JStr "Jane Doe") []
          = (inr JNull, [searchRequest acme_env (JStr "Jane Doe")])) as Hrun
    by reflexivity.
  split; [exact Hrun|].
  exact (lookup_never_undefined axios acme_env (JStr "Jane Doe") [] _ _ Hrun).
Defined.

Lemma lookup_without_data_witness :
  let body := JObj [("success", JBool true)] in
  nullish (prop body "data") = true
  ∧ findPersonByName (axios_answering body JNull) acme_env (JStr "Jane Doe") []
    = (inr JNull, [searchRequest acme_env (JStr "Jane Doe")]).
Proof.
  intros body. split; [reflexivity|].
  exact (lookup_without_data_is_null (axios_answering body JNull) acme_env
           (JStr "Jane Doe") [] body eq_refl eq_refl eq_refl eq_refl).
Defined.

Lemma lookup_malformed_response_witness :
  let body := JObj [("data", JObj [])] in
  nullish (prop (prop body "data") "items") = true
  ∧ findPersonByName (axios_answering body JNull) acme_env (JStr "Jane Doe") []
    = (inl (Error "Failed to search for person: Cannot read properties of undefined (reading '0')"),
       [searchRequest acme_env (JStr "Jane Doe")]).
Proof.
  intros body. split; [reflexivity|].
  exact (proj2 (lookup_malformed_response_fails (axios_answering body JNull)
                  acme_env (JStr "Jane Doe") [] body eq_refl eq_refl)
           eq_refl eq_refl eq_refl).
Defined.

Lemma lookup_reads_only_first_item_witness :
  let items := [JObj []; JObj [("item", jane_42)]] in
  let body := JObj [("data", JObj [("items", JArr items)])] in
  prop (prop body "data") "items" = JArr items
  ∧ findPersonByName (axios_answering body JNull) acme_env (JStr "Jane Doe") []
    = (inr JNull, [searchRequest acme_env (JStr "Jane Doe")]).
Proof.
  intros items body. split; [reflexivity|].
  exact (lookup_reads_only_first_item (axios_answering body JNull) acme_env
           (JStr "Jane Doe") [] body items eq_refl eq_refl eq_refl).
Defined.

Lemma update_urls_are_distinct_witness :
  safeInteger 42 ∧ safeInteger 7
  ∧ req_url (upsertRequest acme_env jane_payload (JNum 42))
    ≠ req_url (createRequest acme_env jane_payload).
Proof.
  assert (safeInteger 42) as S1 by (unfold safeInteger; lia).
  assert (safeInteger 7) as S2 by (unfold safeInteger; lia).
  assert (42 ≠ 0)%Z as H1 by discriminate.
  assert (7 ≠ 0)%Z as H2 by discriminate.
  split; [exact S1|]. split; [exact S2|].
  exact (proj2 (update_urls_are_distinct acme_env jane_payload jane_payload
                  42 7 S1 S2 H1 H2)).
Defined.

Lemma upsert_returns_data_unchecked_witness :
  let axios := axios_answering JNull (JObj [("success", JBool true)]) in
  createOrUpdatePerson axios acme_env jane_payload (JNum 42) []
  = (inr JUndefined, [upsertRequest acme_env jane_payload (JNum 42)]).
Proof.
  intros axios.
  exact (proj1 (upsert_returns_data_unchecked axios acme_env jane_payload
                  (JNum 42) [] (JObj [("success", JBool true)]) eq_refl)
           eq_refl).
Defined.

Lemma upsert_does_not_check_credentials_witness :
  PIPEDRIVE_API_KEY no_key_env = None
  ∧ ∃ r, (createOrUpdatePerson (axios_rejecting (Error "offline")) no_key_env
            jane_payload JUndefined []).2 = [r]
         ∧ req_data r = Some jane_payload
         ∧ req_params r = [("api_token", JUndefined)].
Proof.
  split; [reflexivity|].
  exact (upsert_does_not_check_credentials (axios_rejecting (Error "offline"))
           no_key_env jane_payload JUndefined [] eq_refl).
Defined.

Lemma sync_success_is_two_requests_witness :
  let axios := axios_answering (searchResponse [jane_42]) (personResponse jane_42) in
  let payload := personData get_dotted jane_input jane_mappings in
  syncPdPerson get_dotted axios acme_env jane_input jane_mappings []
  = (inr jane_42, [searchRequest acme_env (JStr "Jane Doe");
                   updateRequest acme_env payload (JNum 42)])
  ∧ ∃ nameMapping existingPerson body,
      find (λ m, String.eqb (pipedriveKey m) "name") jane_mappings = Some nameMapping
      ∧ findPersonByName axios acme_env
          (get_dotted jane_input (inputKey nameMapping)) []
        = (inr existingPerson,
           [searchRequest acme_env (get_dotted jane_input (inputKey nameMapping))])
      ∧ [searchRequest acme_env (JStr "Jane Doe");
         updateRequest acme_env payload (JNum 42)]
        = [searchRequest acme_env (get_dotted jane_input (inputKey nameMapping));
           upsertRequest acme_env payload (optProp existingPerson "id")]
      ∧ axios [searchRequest acme_env (get_dotted jane_input (inputKey nameMapping))]
              (upsertRequest acme_env payload (optProp existingPerson "id"))
        = inr body
      ∧ jane_42 = prop body "data".
Proof.
  intros axios payload.
  assert (syncPdPerson get_dotted axios acme_env jane_input jane_mappings []
          = (inr jane_42, [searchRequest acme_env (JStr "Jane Doe");
                           updateRequest acme_env payload (JNum 42)])) as Hrun
    by (vm_compute; reflexivity).
  split; [exact Hrun|].
  exact (sync_success_is_two_requests get_dotted axios acme_env jane_input
           jane_mappings [] _ _ Hrun).
Defined.

Lemma sync_requests_carry_api_token_witness :
  let axios := axios_answering (searchResponse []) (personResponse jane_42) in
  let payload := personData get_dotted jane_input jane_mappings in
  (syncPdPerson get_dotted axios acme_env jane_input jane_mappings []).2
  = [searchRequest acme_env (JStr "Jane Doe"); createRequest acme_env payload]
  ∧ ∃ key, PIPEDRIVE_API_KEY acme_env = Some key ∧ key ≠ ""
           ∧ assoc "api_token" (req_params (createRequest acme_env payload))
             = JStr key.
Proof.
  intros axios payload.
  assert ((syncPdPerson get_dotted axios acme_env jane_input jane_mappings []).2
          = [searchRequest acme_env (JStr "Jane Doe"); createRequest acme_env payload])
    as Htrace by (vm_compute; reflexivity).
  split; [exact Htrace|].
  apply (sync_requests_carry_api_token get_dotted axios acme_env jane_input
           jane_mappings []
           [searchRequest acme_env (JStr "Jane Doe"); createRequest acme_env payload]
           (createRequest acme_env payload) Htrace).
  right. left.
Defined.

Lemma sync_reports_missing_credentials_witness :
  PIPEDRIVE_API_KEY no_key_env = None
  ∧ syncPdPerson get_dotted
      (axios_answering (searchResponse []) (personResponse jane_42))
      no_key_env jane_input jane_mappings []
    = (inl (Error "Error in syncPdPerson: Missing PIPEDRIVE_API_KEY or PIPEDRIVE_COMPANY_DOMAIN in .env file"),
       []).
Proof.
  split; [reflexivity|].
  apply (sync_reports_missing_credentials get_dotted
           (axios_answering (searchResponse []) (personResponse jane_42))
           no_key_env jane_input jane_mappings (mkMapping "name" "fullName") []
           eq_refl).
  - exists "Jane Doe". split; [reflexivity | discriminate].
  - left. reflexivity.
Defined.

Lemma sync_lookup_failure_witness :
  let axios := axios_rejecting (AxiosError "timeout of 1000ms exceeded" None) in
  syncPdPerson get_dotted axios acme_env jane_input jane_mappings []
  = (inl (Error "Error in syncPdPerson: Failed to search for person: timeout of 1000ms exceeded"),
     [searchRequest acme_env (JStr "Jane Doe")]).
Proof.
  intros axios.
  apply (sync_lookup_failure_stops_the_run get_dotted axios acme_env jane_input
           jane_mappings (mkMapping "name" "fullName") []
           (AxiosError "timeout of 1000ms exceeded" None) eq_refl).
  - exists "Jane Doe". split; [reflexivity | discriminate].
  - reflexivity.
  - reflexivity.
Defined.

Lemma sync_upsert_failure_witness :
  let axios := axios_failing_upsert (searchResponse [jane_42])
                 (AxiosError "Request failed with status code 400"
                             (Some "bad email")) in
  let payload := personData get_dotted jane_input jane_mappings in
  syncPdPerson get_dotted axios acme_env jane_input jane_mappings []
  = (inl (Error "Error in syncPdPerson: Failed to update person: bad email"),
     [searchRequest acme_env (JStr "Jane Doe");
      updateRequest acme_env payload (JNum 42)]).
Proof.
  intros axios payload.
  apply (sync_upsert_failure_is_reported get_dotted axios acme_env jane_input
           jane_mappings (mkMapping "name" "fullName") []
           (searchResponse [jane_42]) jane_42
           (AxiosError "Request failed with status code 400" (Some "bad email"))
           eq_refl).
  - exists "Jane Doe". split; [reflexivity | discriminate].
  - reflexivity.
  - reflexivity.
  - reflexivity.
  - reflexivity.
Defined.

Lemma base_url_override_witness :
  safeInteger 42
  ∧ BASE_URL_VAR acme_env = None
  ∧ req_url (searchRequest acme_env (JStr "Jane Doe"))
    = "https://acme.pipedrive.com/v1/persons/search"
  ∧ req_url (createRequest acme_env jane_payload)
    = "https://acme.pipedrive.com/v1/persons"
  ∧ req_url (updateRequest acme_env jane_payload (JNum 42))
    = "https://acme.pipedrive.com/v1/persons/42".
Proof.
  assert (safeInteger 42) as S by (unfold safeInteger; lia).
  split; [exact S|]. split; [reflexivity|].
  apply (base_url_override acme_env (JStr "Jane Doe") jane_payload 42
           "https://acme.pipedrive.com/v1" S).
  right. split; [by left|]. exists "acme". split; reflexivity.
Defined.

Lemma payload_values_come_from_mappings_witness :
  personData get_dotted jane_input jane_mappings !! "name" = Some (JStr "Jane Doe")
  ∧ ∃ m, m ∈ jane_mappings ∧ pipedriveKey m = "name"
         ∧ nullish (get_dotted jane_input (inputKey m)) = false
         ∧ JStr "Jane Doe" = shapeField "name" (get_dotted jane_input (inputKey m)).
Proof.
  assert (personData get_dotted jane_input jane_mappings !! "name"
          = Some (JStr "Jane Doe")) as H by reflexivity.
  split; [exact H|].
  exact (payload_values_come_from_mappings get_dotted jane_input jane_mappings
           "name" (JStr "Jane Doe") H).
Defined.

Lemma sent_payload_has_a_name_witness :
  let axios := axios_answering (searchResponse []) (personResponse jane_42) in
  let payload := personData get_dotted jane_input jane_mappings in
  (syncPdPerson get_dotted axios acme_env jane_input jane_mappings []).2
  = [searchRequest acme_env (JStr "Jane Doe"); createRequest acme_env payload]
  ∧ ∃ v, payload !! "name" = Some v ∧ nullish v = false.
Proof.
  intros axios payload.
  assert ((syncPdPerson get_dotted axios acme_env jane_input jane_mappings []).2
          = [searchRequest acme_env (JStr "Jane Doe"); createRequest acme_env payload])
    as Htrace by (vm_compute; reflexivity).
  split; [exact Htrace|].
  apply (sent_payload_has_a_name get_dotted axios acme_env jane_input
           jane_mappings []
           [searchRequest acme_env (JStr "Jane Doe"); createRequest acme_env payload]
           (createRequest acme_env payload) payload Htrace).
  - right. left.
  - reflexivity.
Defined.

Lemma plain_fields_are_copied_witness :
  nullish (get_dotted jane_input "contact") = false
  ∧ personData get_dotted jane_input
      [mkMapping "name" "fullName"; mkMapping "Email" "contact"] !! "Email"
    = Some (JObj [("email", JStr "jane@x.com")]).
Proof.
  split; [reflexivity|].
  apply (plain_fields_are_copied get_dotted jane_input
           [mkMapping "name" "fullName"] (mkMapping "Email" "contact") []).
  - discriminate.
  - discriminate.
  - discriminate.
  - reflexivity.
  - intros m' Hin. by apply not_elem_of_nil in Hin.
Defined.

Lemma search_uses_first_name_witness :
  let axios := axios_answering (searchResponse []) (personResponse jane_42) in
  let mappings := mkMapping "email" "a" :: dup_mappings in
  find (λ m, String.eqb (pipedriveKey m) "name") mappings
  = Some (mkMapping "name" "a")
  ∧ (∃ rest,
       (syncPdPerson get_dotted axios acme_env dup_input_both mappings []).2
       = searchRequest acme_env (JStr "x") :: rest)
  ∧ personData get_dotted dup_input_both mappings !! "name" = Some (JStr "y").
Proof.
  intros axios mappings. split; [reflexivity|].
  apply (search_uses_first_name_payload_the_last get_dotted axios acme_env
           dup_input_both mappings (mkMapping "name" "a")
           [mkMapping "email" "a"; mkMapping "name" "a"] (mkMapping "name" "b")
           [] []).
  - reflexivity.
  - exists "x". split; [reflexivity | discriminate].
  - reflexivity.
  - reflexivity.
  - reflexivity.
  - intros m' Hin. by apply not_elem_of_nil in Hin.
  - reflexivity.
Defined.

